(** * YouTubeDownloader: format normalisation and download orchestration

    A shallow embedding of the non-visual logic of
    [src/components/YouTubeDownloader.jsx]: the helper [normalizeFormats]
    with its two derived sequences, and the two asynchronous handlers
    [handleFetch] and [handleDownload].

    JavaScript values are restricted to the primitives the component
    inspects; numbers are the integer-valued ones of magnitude below 2^53
    (heights, bitrates, HTTP statuses), for which the string conversion is
    the plain decimal one.  Strings are well-formed and given by their
    UTF-8 bytes.  A format entry is a JavaScript object, modelled as a
    finite map from property names to values.

    A handler is run by itself against a description of how the promises
    it awaits settle.  The state of a run that is still suspended is the
    state at the instant the handler suspended, and the state of a run
    that is over is the state at the instant it ended; what other handlers
    write while this one is suspended is not part of a run. *)

From Stdlib Require Import ZArith String Ascii List Lia.
From stdpp Require Import base decidable countable gmap strings list pretty.

Local Open Scope string_scope.
Local Open Scope Z_scope.

(** ** JavaScript values *)

Module Js.

Inductive value : Type :=
| Undefined
| Null
| Bool (b : bool)
| Num (n : Z)
| Str (s : string).

#[global] Instance value_eq_dec : EqDecision value.
Proof. solve_decision. Defined.

Definition value_enc (v : value) : unit + (unit + (bool + (Z + string))) :=
  match v with
  | Undefined => inl tt
  | Null => inr (inl tt)
  | Bool b => inr (inr (inl b))
  | Num n => inr (inr (inr (inl n)))
  | Str s => inr (inr (inr (inr s)))
  end.

Definition value_dec (x : unit + (unit + (bool + (Z + string)))) : value :=
  match x with
  | inl _ => Undefined
  | inr (inl _) => Null
  | inr (inr (inl b)) => Bool b
  | inr (inr (inr (inl n))) => Num n
  | inr (inr (inr (inr s))) => Str s
  end.

#[global] Instance value_countable : Countable value.
Proof.
  refine (inj_countable' value_enc value_dec _).
  intros []; reflexivity.
Defined.

(** [!!v]: the falsy values are [undefined], [null], [false], [0] and the
    empty string. *)
Definition truthy (v : value) : bool :=
  match v with
  | Undefined | Null => false
  | Bool b => b
  | Num n => negb (n =? 0)
  | Str s => negb (String.eqb s "")
  end.

(** [a || b] *)
Definition or (a b : value) : value := if truthy a then a else b.

(** [a ?? b] *)
Definition nullish (a b : value) : value :=
  match a with
  | Undefined | Null => b
  | _ => a
  end.

(** [a === b] on primitives. *)
Definition strict_eq (a b : value) : bool := bool_decide (a = b).

(** The string conversion performed by template literals, by string
    concatenation and by [new Error(v)]. *)
Definition toString (v : value) : string :=
  match v with
  | Undefined => "undefined"
  | Null => "null"
  | Bool true => "true"
  | Bool false => "false"
  | Num n => pretty n
  | Str s => s
  end.

(** An object with primitive properties; [o.p] of a missing property is
    [undefined]. *)
Abbreviation object := (gmap string value).

Definition get (o : object) (p : string) : value := default Undefined (o !! p).

(** [s.includes(needle)] *)
Fixpoint includes (needle s : string) : bool :=
  String.prefix needle s
  || match s with
     | EmptyString => false
     | String _ s' => includes needle s'
     end.

(** The code points stripped by [trim] (white space and line terminators)
    in their UTF-8 encoding: the single bytes U+0009 to U+000D and U+0020;
    U+00A0 in two bytes; U+1680, U+2000 to U+200A, U+2028, U+2029, U+202F,
    U+205F, U+3000 and U+FEFF in three bytes. *)
Definition is_space (c : ascii) : bool :=
  let n := nat_of_ascii c in
  ((9 <=? n) && (n <=? 13) || (n =? 32))%nat.

Definition is_space2 (c1 c2 : ascii) : bool :=
  ((nat_of_ascii c1 =? 194) && (nat_of_ascii c2 =? 160))%nat.

Definition is_space3 (c1 c2 c3 : ascii) : bool :=
  let n1 := nat_of_ascii c1 in
  let n2 := nat_of_ascii c2 in
  let n3 := nat_of_ascii c3 in
  ((n1 =? 225) && (n2 =? 154) && (n3 =? 128)
   || (n1 =? 226) && (n2 =? 128)
      && ((128 <=? n3) && (n3 <=? 138) || (n3 =? 168) || (n3 =? 169) || (n3 =? 175))
   || (n1 =? 226) && (n2 =? 129) && (n3 =? 159)
   || (n1 =? 227) && (n2 =? 128) && (n3 =? 128)
   || (n1 =? 239) && (n2 =? 187) && (n3 =? 191))%nat.

(** Dropping the white space at the front, for the encodings of two and
    three bytes recognised by [two] and [three]. *)
Fixpoint strip (two : ascii -> ascii -> bool) (three : ascii -> ascii -> ascii -> bool)
    (s : string) : string :=
  match s with
  | String c1 r1 =>
      if is_space c1 then strip two three r1
      else
        match r1 with
        | String c2 r2 =>
            if two c1 c2 then strip two three r2
            else
              match r2 with
              | String c3 r3 => if three c1 c2 c3 then strip two three r3 else s
              | EmptyString => s
              end
        | EmptyString => s
        end
  | EmptyString => EmptyString
  end.

Definition trimStart (s : string) : string := strip is_space2 is_space3 s.

(** At the end the bytes of an encoding are met in reverse order. *)
Definition trimEnd (s : string) : string :=
  String.rev (strip (fun c2 c1 => is_space2 c1 c2)
                (fun c3 c2 c1 => is_space3 c1 c2 c3) (String.rev s)).

Definition trim (s : string) : string := trimEnd (trimStart s).

(** [encodeURIComponent]: every byte of the UTF-8 encoding outside the
    unreserved set is replaced by its percent escape.  (It throws only on
    an ill-formed string, which the strings of this development are not.) *)
Definition unreserved (c : ascii) : bool :=
  let n := nat_of_ascii c in
  ((65 <=? n) && (n <=? 90) || (97 <=? n) && (n <=? 122)
   || (48 <=? n) && (n <=? 57)
   || bool_decide (n ∈ [45; 95; 46; 33; 126; 42; 39; 40; 41]))%nat.

Definition hex_digit (n : nat) : ascii :=
  if (n <? 10)%nat then ascii_of_nat (48 + n) else ascii_of_nat (55 + n).

Fixpoint encodeURIComponent (s : string) : string :=
  match s with
  | EmptyString => EmptyString
  | String c s' =>
      if unreserved c then String c (encodeURIComponent s')
      else
        let n := nat_of_ascii c in
        String "%" (String (hex_digit (n / 16)) (String (hex_digit (n mod 16))
          (encodeURIComponent s')))
  end.

End Js.

Abbreviation format := (gmap string Js.value).

(** ** helpers: [normalizeFormats] *)

(** The argument of [normalizeFormats]: [videoData?.formats] is either an
    array of format entries or something that is not an array (absent, or
    any other value). *)
Inductive raw_formats : Type :=
| RawArray (l : list format)
| RawOther (v : Js.value).

(** [Array.isArray(raw) ? raw : []] *)
Definition as_list (raw : raw_formats) : list format :=
  match raw with
  | RawArray l => l
  | RawOther _ => []
  end.

Definition hasVideo (f : format) : bool :=
  Js.strict_eq (Js.get f "type") (Js.Str "video")
  || Js.truthy (Js.get f "height") || Js.truthy (Js.get f "vcodec").

Definition hasAudio (f : format) : bool :=
  Js.strict_eq (Js.get f "type") (Js.Str "audio")
  || Js.truthy (Js.get f "abr") || Js.truthy (Js.get f "acodec").

(** The [type] computed by the mapping callback of [withTypes]. *)
Definition classify (f : format) : Js.value :=
  if hasVideo f && negb (hasAudio f) then Js.Str "video"
  else if hasAudio f && negb (hasVideo f) then Js.Str "audio"
  else Js.or (Js.get f "type") (Js.Str "video").

(** [{ ...f, type: ... }] *)
Definition withType (f : format) : format := <["type" := classify f]> f.

Definition withTypes (raw : raw_formats) : list format :=
  withType <$> as_list raw.

(** The template literal of [keyOf]. *)
Definition composite5 (f : format) : Js.value :=
  Js.Str (Js.toString (Js.get f "type") ++ "|"
          ++ Js.toString (Js.get f "ext") ++ "|"
          ++ Js.toString (Js.or (Js.get f "qualityLabel") (Js.Str "")) ++ "|"
          ++ Js.toString (Js.or (Js.get f "abr") (Js.Str "")) ++ "|"
          ++ Js.toString (Js.or (Js.get f "height") (Js.Str ""))).

Definition keyOf (f : format) : Js.value :=
  Js.nullish (Js.get f "format_id") (composite5 f).

(** The [filter] callback closes over the mutable set [seen]; the set is
    threaded through the traversal. *)
Fixpoint filter_seen (seen : gset Js.value) (l : list format) : list format :=
  match l with
  | [] => []
  | f :: l' =>
      let k := keyOf f in
      if decide (k ∈ seen) then filter_seen seen l'
      else f :: filter_seen ({[k]} ∪ seen) l'
  end.

Definition normalizeFormats (raw : raw_formats) : list format :=
  filter_seen ∅ (withTypes raw).

(** [f.type === t] *)
Definition has_type (t : string) (f : format) : Prop :=
  Js.get f "type" = Js.Str t.

#[global] Instance has_type_dec t f : Decision (has_type t f).
Proof. unfold has_type. apply _. Defined.

Definition videoFormats (raw : raw_formats) : list format :=
  filter (has_type "video") (normalizeFormats raw).

Definition audioFormats (raw : raw_formats) : list format :=
  filter (has_type "audio") (normalizeFormats raw).

(** The marker sets and the classification in the words of the
    specification: the markers are the height and codec tags, the bitrate
    and codec tags, and nothing else. *)
Definition video_markers (f : format) : bool :=
  Js.truthy (Js.get f "height") || Js.truthy (Js.get f "vcodec").

Definition audio_markers (f : format) : bool :=
  Js.truthy (Js.get f "abr") || Js.truthy (Js.get f "acodec").

Definition spec_classify (f : format) : Js.value :=
  if video_markers f && negb (audio_markers f) then Js.Str "video"
  else if audio_markers f && negb (video_markers f) then Js.Str "audio"
  else Js.or (Js.get f "type") (Js.Str "video").

(** An object literal. *)
Definition fmt (l : list (string * Js.value)) : format := list_to_map l.

(** ** Component state and the outside world *)

(** A response body of the info endpoint, also the content of the
    [videoData] slot: an object with the properties the component reads,
    or a primitive ([null] included). *)
Record info : Type := Info {
  title : Js.value;
  thumbnail : Js.value;
  formats : raw_formats;
  error_field : Js.value
}.

Inductive data : Type :=
| DataObject (d : info)
| DataValue (v : Js.value).

(** [{}] *)
Definition empty_object : data :=
  DataObject (Info Js.Undefined Js.Undefined (RawOther Js.Undefined) Js.Undefined).

Definition data_truthy (x : data) : bool :=
  match x with
  | DataObject _ => true
  | DataValue v => Js.truthy v
  end.

(** Arrays are objects and hence truthy, the empty one included. *)
Definition raw_truthy (r : raw_formats) : bool :=
  match r with
  | RawArray _ => true
  | RawOther v => Js.truthy v
  end.

(** [x?.formats] and [x?.title]; on a non-nullish primitive the property is
    missing. *)
Definition opt_formats (x : data) : raw_formats :=
  match x with
  | DataObject d => formats d
  | DataValue _ => RawOther Js.Undefined
  end.

Definition opt_title (x : data) : Js.value :=
  match x with
  | DataObject d => title d
  | DataValue _ => Js.Undefined
  end.

Definition opt_error (x : data) : Js.value :=
  match x with
  | DataObject d => error_field d
  | DataValue _ => Js.Undefined
  end.

(** A thrown value: an [Error], a [DOMException] or an axios error. *)
Record exn : Type := Exn {
  name : string;
  message : string;
  code : Js.value;
  response : option data
}.

(** [new Error(msg)] *)
Definition Error (msg : string) : exn := Exn "Error" msg Js.Undefined None.

(** Reading a property of [null] or [undefined]. *)
Definition TypeError (v : Js.value) (p : string) : exn :=
  Exn "TypeError"
    ("Cannot read properties of " ++ Js.toString v ++ " (reading '" ++ p ++ "')")
    Js.Undefined None.

(** The rejection of a request whose signal was aborted. *)
Definition AbortError : exn :=
  Exn "AbortError" "signal is aborted without reason" Js.Undefined None.

(** The rejection of an axios request that ran into its [timeout]. *)
Definition axios_timeout (ms : Z) : exn :=
  Exn "AxiosError" ("timeout of " ++ pretty ms ++ "ms exceeded")
    (Js.Str "ECONNABORTED") None.

(** [err.response?.data?.error] *)
Definition response_error (err : exn) : Js.value :=
  match response err with
  | Some x => opt_error x
  | None => Js.Undefined
  end.

(** The [useState] slots the handlers read and write.  A handler reads
    [url] and [videoData] as they were when it was invoked. *)
Record state : Type := State {
  url : string;
  videoData : data;
  loading : bool;
  downloadingMap : gmap string bool;
  error : string
}.

(** What the handlers do to the outside: requests issued, the abort of the
    request in flight, the save-as click, and the delayed release of the
    object URL. *)
Inductive effect : Type :=
| Post (endpoint : string) (body_url : string)
| Fetch (resource : string)
| Abort
| SaveAs (filename : string)
| RevokeLater (ms : Z).

(** The component state together with the clock (in milliseconds), the
    instant up to which the execution is observed, the due time of the
    armed abort timer, and the effects so far, oldest first. *)
Record world : Type := World {
  st : state;
  now : Z;
  horizon : Z;
  timer : option Z;
  effects : list effect
}.

(** ** Asynchronous computations

    An [async] handler is run against a description of how the promises it
    awaits settle.  Time is explicit so that the deadline of the download
    can be stated. *)

(** An [async] body either returns, throws, or is still suspended at an
    [await] when the observation ends. *)
Inductive result (A : Type) : Type :=
| Ret (a : A)
| Throw (e : exn)
| Pending.
Arguments Ret {A} a.
Arguments Throw {A} e.
Arguments Pending {A}.

Definition M (A : Type) : Type := world -> world * result A.

#[global] Instance M_ret : MRet M := fun A a w => (w, Ret a).

#[global] Instance M_bind : MBind M := fun A B k m w =>
  match m w with
  | (w', Ret a) => k a w'
  | (w', Throw e) => (w', Throw e)
  | (w', Pending) => (w', Pending)
  end.

Definition throw {A} (e : exn) : M A := fun w => (w, Throw e).

Definition getState : M state := fun w => (w, Ret (st w)).

Definition update (f : state -> state) : M unit := fun w =>
  (World (f (st w)) (now w) (horizon w) (timer w) (effects w), Ret tt).

Definition emit (e : effect) : M unit := fun w =>
  (World (st w) (now w) (horizon w) (timer w) (effects w ++ [e]), Ret tt).

Definition setVideoData (x : data) : M unit :=
  update (fun s => State (url s) x (loading s) (downloadingMap s) (error s)).

Definition setLoading (b : bool) : M unit :=
  update (fun s => State (url s) (videoData s) b (downloadingMap s) (error s)).

Definition setError (e : string) : M unit :=
  update (fun s => State (url s) (videoData s) (loading s) (downloadingMap s) e).

(** [setDownloadingMap((prev) => ...)]: a functional update. *)
Definition setDownloadingMap (f : gmap string bool -> gmap string bool) : M unit :=
  update (fun s => State (url s) (videoData s) (loading s) (f (downloadingMap s)) (error s)).

(** [catch]: the handler runs on a thrown value only. *)
Definition catch {A} (body : M A) (handler : exn -> M A) : M A := fun w =>
  match body w with
  | (w', Throw e) => handler e w'
  | r => r
  end.

(** [finally]: the block runs once the body has returned or thrown, and
    the outcome of the body stands unless the block itself throws. *)
Definition finally {A} (body : M A) (block : M unit) : M A := fun w =>
  match body w with
  | (w', Pending) => (w', Pending)
  | (w', r) =>
      match block w' with
      | (w'', Ret _) => (w'', r)
      | (w'', Throw e) => (w'', Throw e)
      | (w'', Pending) => (w'', Pending)
      end
  end.

Definition try_catch_finally {A} (body : M A) (handler : exn -> M A)
    (block : M unit) : M A :=
  finally (catch body handler) block.

(** How a promise of the platform settles: after some milliseconds with a
    value or a rejection, or never. *)
Inductive settle (A : Type) : Type :=
| After (ms : Z) (r : A + exn)
| Never.
Arguments After {A} ms r.
Arguments Never {A}.

Definition of_sum {A} (r : A + exn) : result A :=
  match r with
  | inl a => Ret a
  | inr e => Throw e
  end.

(** [setTimeout(() => controller.abort(), ms)] and [clearTimeout]. *)
Definition setTimeout_abort (ms : Z) : M unit := fun w =>
  (World (st w) (now w) (horizon w) (Some (now w + ms)) (effects w), Ret tt).

Definition clearTimeout : M unit := fun w =>
  (World (st w) (now w) (horizon w) None (effects w), Ret tt).

(** Waiting for a promise.  [due] is the due time of an abort timer the
    promise is bound to, if any: when the timer is due no later than the
    promise would settle, the timer fires first, the request is aborted and
    the promise rejects with an [AbortError].  Nothing beyond the horizon
    is observed. *)
Definition settle_at {A} (due : option Z) (p : settle A) : M A := fun w =>
  let fate : option (Z * bool) :=
    match p, due with
    | After ms _, Some t => Some (if now w + ms <? t then (now w + ms, false) else (t, true))
    | After ms _, None => Some (now w + ms, false)
    | Never, Some t => Some (t, true)
    | Never, None => None
    end in
  match fate with
  | Some (t, aborted) =>
      if t <=? horizon w then
        if aborted
        then (World (st w) t (horizon w) None (effects w ++ [Abort]), Throw AbortError)
        else (World (st w) t (horizon w) (timer w) (effects w),
              match p with After _ r => of_sum r | Never => Pending end)
      else (w, Pending)
  | None => (w, Pending)
  end.

(** [await] of a promise that no signal can abort. *)
Definition await {A} (p : settle A) : M A := settle_at None p.

(** [await] of a promise bound to the signal of the controller that the
    armed timer aborts. *)
Definition await_signal {A} (p : settle A) : M A := fun w =>
  settle_at (timer w) p w.

(** The [timeout] option of axios: a request that has not settled within
    [ms] milliseconds rejects with code [ECONNABORTED]. *)
Definition with_timeout {A} (ms : Z) (p : settle A) : settle A :=
  match p with
  | After t r => if t <? ms then After t r else After ms (inr (axios_timeout ms))
  | Never => After ms (inr (axios_timeout ms))
  end.

(** ** Platform calls *)

Record http_response : Type := Response {
  status : Z;
  statusText : string
}.

(** [response.ok] *)
Definition ok (r : http_response) : bool :=
  (200 <=? status r) && (status r <=? 299).

(** [axios.post(endpoint, { url }, { timeout })]: resolves with the body
    of a 2xx response and rejects otherwise. *)
Definition axios_post (endpoint body_url : string) (timeout : Z)
    (net : settle data) : M data :=
  emit (Post endpoint body_url);;
  await (with_timeout timeout net).

(** [fetch(resource, { signal })] *)
Definition fetch (resource : string) (net : settle http_response) : M http_response :=
  emit (Fetch resource);;
  await_signal net.

(** [response.blob()], reduced to the size of the blob; the body of a
    response belongs to the request and is aborted with it. *)
Definition blob (net : settle Z) : M Z := await_signal net.

(** [x.error] for the body [x] of a response: a [TypeError] on [null] and
    [undefined]. *)
Definition get_error (x : data) : M Js.value :=
  match x with
  | DataObject d => mret (error_field d)
  | DataValue Js.Undefined => throw (TypeError Js.Undefined "error")
  | DataValue Js.Null => throw (TypeError Js.Null "error")
  | DataValue _ => mret Js.Undefined
  end.

(** ** actions *)

Section Component.

(** [process.env.REACT_APP_API_URL] *)
Variable API_BASE : Js.value.

Definition fetch_message (err : exn) : string :=
  let errorMessage := "Failed to fetch video info. " in
  if Js.strict_eq (code err) (Js.Str "ECONNABORTED") then
    errorMessage ++ "Request timeout. Please try again."
  else if Js.truthy (response_error err) then
    errorMessage ++ Js.toString (response_error err)
  else if Js.includes "Network Error" (message err) then
    errorMessage ++ "Cannot connect to server. Check your internet connection."
  else
    errorMessage ++ "Please check the URL and try again.".

Definition handleFetch (net : settle data) : M unit :=
  s ← getState;
  if String.eqb (Js.trim (url s)) "" then mret tt
  else
    setLoading true;;
    setVideoData (DataValue Js.Null);;
    setError "";;
    try_catch_finally
      (res_data ← axios_post (Js.toString API_BASE ++ "/api/info") (url s) 30000 net;
       if data_truthy res_data && raw_truthy (opt_formats res_data) then
         setVideoData res_data
       else
         e ← get_error res_data;
         if Js.truthy e then throw (Error (Js.toString e))
         else throw (Error "No video data received from server"))
      (fun err =>
         setError (fetch_message err);;
         setVideoData empty_object)
      (setLoading false).

(** The template literal in the [id] of [handleDownload] and of
    [DownloadCell]. *)
Definition composite3 (f : format) : Js.value :=
  Js.Str (Js.toString (Js.get f "type") ++ "-"
          ++ Js.toString (Js.get f "ext") ++ "-"
          ++ Js.toString (Js.or (Js.get f "qualityLabel") (Js.Str ""))).

(** The [id] itself. *)
Definition download_id (f : format) : Js.value :=
  Js.or (Js.get f "format_id") (composite3 f).

(** The property name under which [id] indexes [downloadingMap]. *)
Definition busy_key (f : format) : string := Js.toString (download_id f).

Definition downloadUrl (s : state) (f : format) : string :=
  Js.toString API_BASE ++ "/api/download?url=" ++ Js.encodeURIComponent (url s)
  ++ "&format_id=" ++ Js.toString (Js.nullish (Js.get f "format_id") (Js.Str ""))
  ++ "&title="
  ++ Js.encodeURIComponent (Js.toString (Js.or (opt_title (videoData s)) (Js.Str "video")))
  ++ "&type=" ++ Js.encodeURIComponent (Js.toString (Js.get f "type")).

Definition download_message (err : exn) : string :=
  if String.eqb (name err) "AbortError" then
    "Download timeout. The video might be too large."
  else "Download failed: " ++ message err.

Definition handleDownload (f : format) (net : settle http_response)
    (body : settle Z) : M unit :=
  s ← getState;
  let id := busy_key f in
  setDownloadingMap (fun prev => <[id := true]> prev);;
  setError "";;
  try_catch_finally
    (setTimeout_abort 120000;;
     response ← fetch (downloadUrl s f) net;
     clearTimeout;;
     if negb (ok response) then
       throw (Error ("Server returned " ++ pretty (status response) ++ ": "
                     ++ statusText response))
     else
       size ← blob body;
       if size =? 0 then throw (Error "Received empty file from server")
       else
         let ext := if Js.strict_eq (Js.get f "type") (Js.Str "audio")
                    then "mp3" else "mp4" in
         let filename :=
           Js.toString (Js.or (opt_title (videoData s)) (Js.Str "video"))
           ++ "." ++ ext in
         emit (SaveAs filename);;
         emit (RevokeLater 100))
    (fun err => setError (download_message err))
    (setDownloadingMap (fun prev => <[id := false]> prev)).

(** [DownloadCell]: a spinner while the busy flag of the entry is set,
    otherwise the button, disabled as long as there is no [videoData]. *)
Inductive cell : Type :=
| Spinner
| Button (disabled : bool).

(** [downloadingMap[id]] as a condition: the flag stored under the key,
    and for a key the map does not hold whatever the plain object inherits
    under that name, which is a function or an object, hence truthy. *)
Definition inherited (k : string) : bool :=
  bool_decide (k ∈ ["constructor"; "__proto__"; "hasOwnProperty"; "isPrototypeOf";
                    "propertyIsEnumerable"; "toLocaleString"; "toString"; "valueOf";
                    "__defineGetter__"; "__defineSetter__"; "__lookupGetter__";
                    "__lookupSetter__"]).

Definition isDownloading (s : state) (f : format) : bool :=
  match downloadingMap s !! busy_key f with
  | Some b => b
  | None => inherited (busy_key f)
  end.

Definition DownloadCell (s : state) (f : format) : cell :=
  if isDownloading s f then Spinner
  else Button (negb (data_truthy (videoData s))).

(** A click on the cell reaches [handleDownload] only through an enabled
    button. *)
Definition click (f : format) (net : settle http_response)
    (body : settle Z) : M unit :=
  s ← getState;
  match DownloadCell s f with
  | Button false => handleDownload f net body
  | _ => mret tt
  end.

End Component.

(** The network requests among the effects. *)
Definition is_request (e : effect) : bool :=
  match e with
  | Fetch _ | Post _ _ => true
  | _ => false
  end.

Definition requests (w : world) : list effect :=
  List.filter is_request (effects w).

(** The busy flag recorded under a key; a missing entry counts as idle. *)
Definition busy (w : world) (k : string) : bool :=
  default false (downloadingMap (st w) !! k).

(** A world at time zero with no timer armed and nothing done yet,
    observed up to [h]. *)
Definition start (s : state) (h : Z) : world := World s 0 h None [].

(** ** Auxiliary notions and sample inputs *)

(** An entry that declares itself audio and carries a height. *)
Definition audio_with_height : format :=
  fmt [("type", Js.Str "audio"); ("height", Js.Num 720); ("ext", Js.Str "mp4")].

(** A 720p MP4 entry without a server identifier, as [normalizeFormats]
    leaves it. *)
Definition mp4_720 : format :=
  withType (fmt [("height", Js.Num 720); ("ext", Js.Str "mp4")]).

Definition mp4_1080 : format :=
  withType (fmt [("height", Js.Num 1080); ("ext", Js.Str "mp4")]).

(** The first entry of [l] carrying the key [k], with its position. *)
Definition first_with_key (k : Js.value) (l : list format) : option (nat * format) :=
  list_find (λ g, keyOf g = k) l.

(** Three entries, the third repeating the key of the first. *)
Definition raw_137 : format :=
  fmt [("format_id", Js.Str "137"); ("height", Js.Num 1080); ("ext", Js.Str "mp4")].

Definition raw_140 : format :=
  fmt [("format_id", Js.Str "140"); ("abr", Js.Num 128); ("ext", Js.Str "m4a")].

Definition raw_137_again : format :=
  fmt [("format_id", Js.Str "137"); ("height", Js.Num 720); ("ext", Js.Str "webm")].

Definition three_raw : raw_formats := RawArray [raw_137; raw_140; raw_137_again].

(** The declared types under which classification ends in "video" or
    "audio" whatever the markers are. *)
Definition declares_known_type (e : format) : Prop :=
  Js.get e "type" = Js.Str "video" ∨ Js.get e "type" = Js.Str "audio"
  ∨ Js.truthy (Js.get e "type") = false.

(** An entry declared as subtitles, without any marker. *)
Definition subtitle_entry : format :=
  fmt [("type", Js.Str "subtitle"); ("ext", Js.Str "vtt")].

Definition subtitle_raw : raw_formats := RawArray [subtitle_entry].

Definition api_example : Js.value := Js.Str "https://api.example.com".
Definition entry_137 : format := withType raw_137.
Definition loaded_state : state :=
  State "https://youtu.be/abc"
    (DataObject (Info (Js.Str "My clip") Js.Undefined three_raw Js.Undefined))
    false ∅ "".

(** The component right after a successful fetch, observed at once. *)
Definition idle_world : world := start loaded_state 0.

(** The world in which a first download of entry 137 is suspended at its
    [fetch]. *)
Definition first_call : world * result unit :=
  handleDownload api_example entry_137 Never Never idle_world.

Definition second_call : world * result unit :=
  handleDownload api_example entry_137 Never Never first_call.1.

(** A download whose response never arrives, observed after the deadline. *)
Definition timed_out : world * result unit :=
  handleDownload api_example entry_137 Never Never (start loaded_state 120000).

(** Headers after one second, the body after a further five hundred. *)
Definition slow_body : world * result unit :=
  handleDownload api_example entry_137
    (After 1000 (inl (Response 200 "OK"))) (After 500000 (inl 1024))
    (start loaded_state 1000000).

(** The same response with a body that never completes. *)
Definition stalled_body : world * result unit :=
  handleDownload api_example entry_137
    (After 1000 (inl (Response 200 "OK"))) Never
    (start loaded_state 1000000).

(** That download observed up to an arbitrary instant [h]. *)
Definition stalled_at (h : Z) : world * result unit :=
  handleDownload api_example entry_137
    (After 1000 (inl (Response 200 "OK"))) Never
    (start loaded_state h).

(** A well-formed response without formats and with an error text. *)
Definition unavailable_info : info :=
  Info Js.Undefined Js.Undefined (RawOther Js.Undefined) (Js.Str "Video unavailable").

Definition unavailable : data := DataObject unavailable_info.

Definition fetch_unavailable : world * result unit :=
  handleFetch api_example (After 800 (inl unavailable)) (start loaded_state 60000).

(** The same text in the body of a rejected, non-2xx response. *)
Definition fetch_rejected_unavailable : world * result unit :=
  handleFetch api_example
    (After 800 (inr (Exn "AxiosError" "Request failed with status code 400"
                       (Js.Str "ERR_BAD_REQUEST") (Some unavailable))))
    (start loaded_state 60000).

(** A response carrying both formats and an error text. *)
Definition formats_and_error : info :=
  Info (Js.Str "My clip") Js.Undefined three_raw (Js.Str "Video unavailable").

(** ** The view: what the render shows and what its controls call *)

Section View.

Variable API_BASE : Js.value.

(** [handleEnter]: the key handler of the URL field. *)
Definition handleEnter (key : string) (net : settle data) : M unit :=
  if String.eqb key "Enter" then handleFetch API_BASE net else mret tt.

(** [disabled={loading || !url.trim()}] on the Fetch button. *)
Definition fetch_disabled (s : state) : bool :=
  loading s || String.eqb (Js.trim (url s)) "".

(** A click on the Fetch button; a disabled button calls nothing. *)
Definition click_fetch (net : settle data) : M unit :=
  s ← getState;
  if fetch_disabled s then mret tt else handleFetch API_BASE net.

End View.

(** [{error && <Alert>}]: the alert is rendered for a non-empty [error]. *)
Definition shows_alert (s : state) : bool := negb (String.eqb (error s) "").

(** [{videoData && videoData.title && ...}]: the thumbnail, the tabs and
    the tables are rendered only under this condition. *)
Definition shows_results (s : state) : bool :=
  data_truthy (videoData s) && Js.truthy (opt_title (videoData s)).

(** The file names of the save-as actions among some effects. *)
Definition saves (l : list effect) : list string :=
  omap (λ e, match e with SaveAs fn => Some fn | _ => None end) l.

(** The name under which [handleDownload] saves the payload. *)
Definition filename_of (s : state) (f : format) : string :=
  Js.toString (Js.or (opt_title (videoData s)) (Js.Str "video")) ++ "."
  ++ (if Js.strict_eq (Js.get f "type") (Js.Str "audio") then "mp3" else "mp4").

(** [x] is neither [null] nor [undefined]. *)
Definition present (v : Js.value) : Prop := v ≠ Js.Undefined ∧ v ≠ Js.Null.

(** Sample inputs for the further properties. *)
(** A URL consisting of one no-break space, U+00A0. *)
Definition nbsp_url : string :=
  String (ascii_of_nat 194) (String (ascii_of_nat 160) EmptyString).

Definition nbsp_state : state := State nbsp_url (DataValue Js.Null) false ∅ "".

(** An entry whose server identifier is the name of an inherited property. *)
Definition entry_constructor : format :=
  withType (fmt [("format_id", Js.Str "constructor"); ("height", Js.Num 720);
                 ("ext", Js.Str "mp4")]).

Definition loading_state : state :=
  State "https://youtu.be/abc" (DataValue Js.Null) true ∅ "".

Definition network_error : exn :=
  Exn "AxiosError" "Network Error" (Js.Str "ERR_NETWORK") None.

(** * Properties *)

(** ** Classification *)

Example scenario_A :
  let e := fmt [("height", Js.Num 720); ("ext", Js.Str "mp4"); ("format_id", Js.Str "137")] in
  videoFormats (RawArray [e; e]) = [withType e] /\ audioFormats (RawArray [e; e]) = [].
Proof. vm_compute. split; reflexivity. Qed.

Lemma get_withType f : Js.get (withType f) "type" = classify f.
Proof. unfold withType, Js.get. by rewrite lookup_insert_eq. Qed.

Lemma hasVideo_markers f :
  hasVideo f = Js.strict_eq (Js.get f "type") (Js.Str "video") || video_markers f.
Proof. unfold hasVideo, video_markers. by rewrite orb_assoc. Qed.

Lemma hasAudio_markers f :
  hasAudio f = Js.strict_eq (Js.get f "type") (Js.Str "audio") || audio_markers f.
Proof. unfold hasAudio, audio_markers. by rewrite orb_assoc. Qed.

(** C2, as stated, fails: an entry with a video marker and no audio marker
    whose declared type is "audio" is classified audio, because the
    declared type is itself one of the markers tested by the code. *)
Lemma classify_markers_not_first :
  video_markers audio_with_height = true
  ∧ audio_markers audio_with_height = false
  ∧ spec_classify audio_with_height = Js.Str "video"
  ∧ classify audio_with_height = Js.Str "audio"
  ∧ Js.get (withType audio_with_height) "type" ≠ Js.Str "video".
Proof. vm_compute. repeat split; congruence. Qed.

Lemma classify_declared_video (f : format) :
  Js.get f "type" = Js.Str "video" → classify f = Js.Str "video".
Proof.
  intros Ht. unfold classify. rewrite hasVideo_markers, hasAudio_markers, Ht.
  simpl. destruct (audio_markers f); reflexivity.
Qed.

Lemma classify_declared_audio (f : format) :
  Js.get f "type" = Js.Str "audio" → classify f = Js.Str "audio".
Proof.
  intros Ht. unfold classify. rewrite hasVideo_markers, hasAudio_markers, Ht.
  simpl. destruct (video_markers f); reflexivity.
Qed.

Lemma classify_by_markers (f : format) :
  Js.get f "type" ≠ Js.Str "video" → Js.get f "type" ≠ Js.Str "audio" →
  classify f = spec_classify f.
Proof.
  intros Hv Ha. unfold classify, spec_classify.
  rewrite hasVideo_markers, hasAudio_markers. unfold Js.strict_eq.
  by rewrite !bool_decide_eq_false_2.
Qed.

(** C2, amended: a declared type of exactly "video" or "audio" decides the
    classification whatever the markers are; for any other declared type
    the precedence of the specification applies: video on video markers
    without audio markers, audio on audio markers without video markers,
    and otherwise the declared type, or video when it is falsy. *)
Theorem classify_declared_type_first (f : format) :
  Js.get (withType f) "type" = classify f
  ∧ classify f =
      if decide (Js.get f "type" = Js.Str "video" ∨ Js.get f "type" = Js.Str "audio")
      then Js.get f "type"
      else spec_classify f.
Proof.
  split; [apply get_withType|].
  destruct (decide _) as [[Ht|Ht]|Hn].
  - rewrite Ht. by apply classify_declared_video.
  - rewrite Ht. by apply classify_declared_audio.
  - apply classify_by_markers; tauto.
Qed.

(** ** Identity keys *)

(** C3, as stated, fails: without a server identifier the key of
    [handleDownload] is a three-part composite joined by dashes, not the
    five-part composite of [keyOf]. *)
Lemma download_id_differs_from_keyOf :
  keyOf mp4_720 = Js.Str "video|mp4|||720"
  ∧ download_id mp4_720 = Js.Str "video-mp4-"
  ∧ download_id mp4_720 ≠ keyOf mp4_720.
Proof. vm_compute. repeat split; congruence. Qed.

(** Two variants that deduplication keeps apart share one busy flag. *)
Example distinct_variants_share_busy_key :
  normalizeFormats (RawArray [mp4_720; mp4_1080]) = [mp4_720; mp4_1080]
  ∧ busy_key mp4_720 = busy_key mp4_1080.
Proof. vm_compute. split; reflexivity. Qed.

Lemma length_append (s1 s2 : string) :
  String.length (s1 ++ s2) = (String.length s1 + String.length s2)%nat.
Proof. induction s1 as [|c s1 IH]; simpl; [done|]. by rewrite IH. Qed.

Lemma truthy_not_nullish v d : Js.truthy v = true → Js.nullish v d = v.
Proof. by destruct v. Qed.

(** C3, amended: the key of [handleDownload] and the key of [keyOf] are
    both the server identifier exactly when that identifier is truthy.
    Otherwise [handleDownload] uses the composite of type, extension and
    quality label or empty, joined by dashes, while [keyOf] uses the
    identifier unless it is null or undefined, and then the composite of
    type, extension, quality label, bitrate and height joined by bars. *)
Theorem download_id_vs_keyOf (f : format) :
  (Js.truthy (Js.get f "format_id") = true →
     download_id f = Js.get f "format_id" ∧ keyOf f = Js.get f "format_id")
  ∧ (Js.truthy (Js.get f "format_id") = false →
       download_id f = composite3 f
       ∧ keyOf f = Js.nullish (Js.get f "format_id") (composite5 f)
       ∧ download_id f ≠ keyOf f).
Proof.
  unfold download_id, keyOf, Js.or.
  split; intros Hid; rewrite Hid.
  - split; [done|]. by apply truthy_not_nullish.
  - split; [done|]. split; [done|].
    assert (Hlen : composite3 f ≠ composite5 f).
    { unfold composite3, composite5. intros [= H].
      apply (f_equal String.length) in H.
      rewrite !length_append in H. simpl in H. lia. }
    assert (Hne : composite3 f ≠ Js.Str "").
    { unfold composite3. intros [= H].
      apply (f_equal String.length) in H.
      rewrite !length_append in H. simpl in H. lia. }
    destruct (Js.get f "format_id") as [| |b|n|s]; simpl in *; try done.
    destruct s; [done|discriminate Hid].
Qed.

Lemma download_id_vs_keyOf_witness :
  (download_id entry_137 = Js.Str "137" ∧ keyOf entry_137 = Js.Str "137")
  ∧ download_id mp4_720 = composite3 mp4_720
  ∧ keyOf mp4_720 = composite5 mp4_720
  ∧ download_id mp4_720 ≠ keyOf mp4_720.
Proof.
  split.
  - apply (download_id_vs_keyOf entry_137). reflexivity.
  - apply (download_id_vs_keyOf mp4_720). reflexivity.
Defined.

(** ** Deduplication *)

Lemma first_with_key_cons_eq f l : first_with_key (keyOf f) (f :: l) = Some (0%nat, f).
Proof. unfold first_with_key. simpl. by rewrite decide_True. Qed.

Lemma first_with_key_cons_ne k f l :
  keyOf f ≠ k →
  first_with_key k (f :: l) = prod_map S id <$> first_with_key k l.
Proof. intros Hne. unfold first_with_key. simpl. by rewrite decide_False. Qed.

Section FilterSeen.

Implicit Types (seen : gset Js.value) (l : list format) (f g : format).

Lemma filter_seen_sublist seen l : filter_seen seen l `sublist_of` l.
Proof.
  revert seen. induction l as [|f l IH]; intros seen; cbn [filter_seen]; [constructor|].
  case_decide; [apply sublist_cons, IH | apply sublist_skip, IH].
Qed.

Lemma filter_seen_fresh seen l f : f ∈ filter_seen seen l → keyOf f ∉ seen.
Proof.
  revert seen. induction l as [|h l IH]; intros seen; cbn [filter_seen]; [by intros ?%elem_of_nil|].
  case_decide as Hh; [apply IH|].
  intros [->|Hin]%elem_of_cons; [done|].
  apply IH in Hin. set_solver.
Qed.

Lemma filter_seen_keys_NoDup seen l : NoDup (keyOf <$> filter_seen seen l).
Proof.
  revert seen. induction l as [|h l IH]; intros seen; cbn [filter_seen]; [constructor|].
  case_decide as Hh; [apply IH|].
  rewrite fmap_cons. apply NoDup_cons. split; [|apply IH].
  intros (g & Hk & Hg)%list_elem_of_fmap.
  apply filter_seen_fresh in Hg. set_solver.
Qed.

Lemma filter_seen_keeps_keys seen l f :
  f ∈ l → keyOf f ∉ seen → keyOf f ∈ keyOf <$> filter_seen seen l.
Proof.
  revert seen. induction l as [|h l IH]; intros seen; cbn [filter_seen]; [by intros ?%elem_of_nil|].
  intros Hin Hf. apply elem_of_cons in Hin as [->|Hin].
  - rewrite decide_False by done. rewrite fmap_cons. left.
  - case_decide as Hh; [by apply IH|].
    rewrite fmap_cons. destruct (decide (keyOf f = keyOf h)) as [He|Hne]; [rewrite He; left|].
    right. apply IH; [done|]. rewrite elem_of_union, elem_of_singleton. tauto.
Qed.

(** A survivor is the first entry of the input with its key. *)
Lemma filter_seen_first seen l f :
  f ∈ filter_seen seen l → ∃ i, first_with_key (keyOf f) l = Some (i, f).
Proof.
  revert seen. induction l as [|h l IH]; intros seen; cbn [filter_seen]; [by intros ?%elem_of_nil|].
  case_decide as Hh.
  - intros Hin. pose proof (filter_seen_fresh _ _ _ Hin) as Hf.
    destruct (IH _ Hin) as [i Hi]. exists (S i).
    rewrite first_with_key_cons_ne by congruence. by rewrite Hi.
  - intros [->|Hin]%elem_of_cons.
    + exists 0%nat. apply first_with_key_cons_eq.
    + pose proof (filter_seen_fresh _ _ _ Hin) as Hf.
      destruct (IH _ Hin) as [i Hi]. exists (S i).
      rewrite first_with_key_cons_ne by set_solver. by rewrite Hi.
Qed.

(** Survivors come in the order of their first occurrences. *)
Lemma filter_seen_order seen l i j f g :
  filter_seen seen l !! i = Some f → filter_seen seen l !! j = Some g →
  (i < j)%nat →
  ∃ a b, first_with_key (keyOf f) l = Some (a, f)
         ∧ first_with_key (keyOf g) l = Some (b, g) ∧ (a < b)%nat.
Proof.
  revert seen i j. induction l as [|h l IH]; intros seen i j; cbn [filter_seen]; [done|].
  case_decide as Hh.
  - intros Hi Hj Hlt.
    pose proof (filter_seen_fresh seen l f (list_elem_of_lookup_2 _ _ _ Hi)) as Hf.
    pose proof (filter_seen_fresh seen l g (list_elem_of_lookup_2 _ _ _ Hj)) as Hg.
    destruct (IH _ _ _ Hi Hj Hlt) as (a & b & Ha & Hb & Hab).
    exists (S a), (S b).
    rewrite !first_with_key_cons_ne by congruence. rewrite Ha, Hb.
    repeat split; [done..|lia].
  - intros Hi Hj Hlt. destruct j as [|j]; [lia|]. simpl in Hj.
    pose proof (list_elem_of_lookup_2 _ _ _ Hj) as Hgin.
    pose proof (filter_seen_fresh _ _ _ Hgin) as Hg.
    destruct i as [|i]; simpl in Hi.
    + injection Hi as ->.
      destruct (filter_seen_first _ _ _ Hgin) as [b Hb].
      exists 0%nat, (S b). rewrite first_with_key_cons_eq.
      rewrite first_with_key_cons_ne by set_solver. rewrite Hb.
      repeat split; [done..|lia].
    + pose proof (filter_seen_fresh _ _ _ (list_elem_of_lookup_2 _ _ _ Hi)) as Hf.
      destruct (IH _ _ _ Hi Hj ltac:(lia)) as (a & b & Ha & Hb & Hab).
      exists (S a), (S b).
      rewrite !first_with_key_cons_ne by set_solver. rewrite Ha, Hb.
      repeat split; [done..|lia].
Qed.

End FilterSeen.

Lemma keys_NoDup_filter (P : format → Prop) `{!∀ f, Decision (P f)} (l : list format) :
  NoDup (keyOf <$> l) → NoDup (keyOf <$> filter P l).
Proof.
  intros Hl. eapply sublist_NoDup; [exact Hl|].
  apply fmap_sublist, sublist_filter.
Qed.

(** C5: deduplication runs over the typed entries in input order and is
    first-seen-wins.  The survivors form a subsequence of the typed input;
    no two of them share an identity key; every key of the input is
    represented; each survivor is the first input entry with its key; the
    survivors are ordered as their first occurrences are; and neither
    output partition contains two entries with the same key. *)
Theorem normalizeFormats_first_seen_wins (raw : raw_formats) :
  normalizeFormats raw `sublist_of` withTypes raw
  ∧ NoDup (keyOf <$> normalizeFormats raw)
  ∧ (∀ f, f ∈ withTypes raw → keyOf f ∈ keyOf <$> normalizeFormats raw)
  ∧ (∀ f, f ∈ normalizeFormats raw →
       ∃ i, first_with_key (keyOf f) (withTypes raw) = Some (i, f))
  ∧ (∀ i j f g,
       normalizeFormats raw !! i = Some f → normalizeFormats raw !! j = Some g →
       (i < j)%nat →
       ∃ a b, first_with_key (keyOf f) (withTypes raw) = Some (a, f)
              ∧ first_with_key (keyOf g) (withTypes raw) = Some (b, g)
              ∧ (a < b)%nat)
  ∧ NoDup (keyOf <$> videoFormats raw)
  ∧ NoDup (keyOf <$> audioFormats raw).
Proof.
  unfold videoFormats, audioFormats, normalizeFormats.
  repeat split.
  - apply filter_seen_sublist.
  - apply filter_seen_keys_NoDup.
  - intros f Hf. apply filter_seen_keeps_keys; [done|set_solver].
  - intros f. apply filter_seen_first.
  - intros i j f g. apply filter_seen_order.
  - apply keys_NoDup_filter, filter_seen_keys_NoDup.
  - apply keys_NoDup_filter, filter_seen_keys_NoDup.
Qed.

Lemma normalizeFormats_first_seen_wins_witness :
  ∃ a b,
    first_with_key (keyOf (withType raw_137)) (withTypes three_raw)
      = Some (a, withType raw_137)
    ∧ first_with_key (keyOf (withType raw_140)) (withTypes three_raw)
      = Some (b, withType raw_140)
    ∧ (a < b)%nat.
Proof.
  destruct (normalizeFormats_first_seen_wins three_raw)
    as (_ & _ & _ & _ & Hord & _).
  apply (Hord 0%nat 1%nat (withType raw_137) (withType raw_140)).
  - vm_compute. reflexivity.
  - vm_compute. reflexivity.
  - lia.
Defined.

(** ** Partition *)

(** Equal entries have equal keys, so the survivors are pairwise distinct. *)
Lemma normalizeFormats_NoDup raw : NoDup (normalizeFormats raw).
Proof.
  apply (NoDup_fmap_1 keyOf), filter_seen_keys_NoDup.
Qed.

Lemma classify_known e :
  declares_known_type e → classify e = Js.Str "video" ∨ classify e = Js.Str "audio".
Proof.
  intros Hd.
  destruct (decide (Js.get e "type" = Js.Str "video")) as [Hv|Hv];
    [left; by apply classify_declared_video|].
  destruct (decide (Js.get e "type" = Js.Str "audio")) as [Ha|Ha];
    [right; by apply classify_declared_audio|].
  destruct Hd as [Hd|[Hd|Hd]]; [done..|].
  rewrite classify_by_markers by done.
  unfold spec_classify, Js.or. rewrite Hd.
  destruct (_ && _); [by left|]. destruct (_ && _); [by right|by left].
Qed.

Lemma normalizeFormats_typed raw f :
  f ∈ normalizeFormats raw → ∃ e, e ∈ as_list raw ∧ f = withType e.
Proof.
  intros Hf.
  eapply elem_of_sublist in Hf; [|apply filter_seen_sublist].
  apply list_elem_of_fmap in Hf as (e & -> & He). eauto.
Qed.

(** C4, as stated, fails: a surviving entry whose classified type is
    neither "video" nor "audio" is in neither output sequence. *)
Lemma partition_misses_other_types :
  normalizeFormats subtitle_raw = [withType subtitle_entry]
  ∧ videoFormats subtitle_raw = []
  ∧ audioFormats subtitle_raw = []
  ∧ (withType subtitle_entry ∈ normalizeFormats subtitle_raw)
  ∧ (withType subtitle_entry ∉ videoFormats subtitle_raw)
  ∧ (withType subtitle_entry ∉ audioFormats subtitle_raw).
Proof.
  assert (Hn : normalizeFormats subtitle_raw = [withType subtitle_entry])
    by (vm_compute; reflexivity).
  assert (Hv : videoFormats subtitle_raw = []) by (vm_compute; reflexivity).
  assert (Ha : audioFormats subtitle_raw = []) by (vm_compute; reflexivity).
  rewrite Hn, Hv, Ha. repeat split; [left|apply not_elem_of_nil..].
Qed.

(** C4, amended: the two output sequences are disjoint and free of
    repetitions, and a surviving entry is in the video sequence exactly
    when its classified type is "video" and in the audio sequence exactly
    when it is "audio"; a survivor of any other classified type is in
    neither.  When every raw entry declares "video", "audio" or nothing
    (a falsy type), every survivor is in exactly one of the two. *)
Theorem partition_by_classified_type (raw : raw_formats) :
  (∀ f, f ∈ videoFormats raw → f ∉ audioFormats raw)
  ∧ NoDup (videoFormats raw) ∧ NoDup (audioFormats raw)
  ∧ (∀ f, f ∈ normalizeFormats raw →
       (f ∈ videoFormats raw ↔ Js.get f "type" = Js.Str "video")
       ∧ (f ∈ audioFormats raw ↔ Js.get f "type" = Js.Str "audio"))
  ∧ ((∀ e, e ∈ as_list raw → declares_known_type e) →
     ∀ f, f ∈ normalizeFormats raw →
       (f ∈ videoFormats raw ∧ f ∉ audioFormats raw)
       ∨ (f ∈ audioFormats raw ∧ f ∉ videoFormats raw)).
Proof.
  unfold videoFormats, audioFormats.
  split; [|split; [|split; [|split]]].
  - intros f [Hv _]%list_elem_of_filter [Ha _]%list_elem_of_filter.
    unfold has_type in *. congruence.
  - apply NoDup_filter, normalizeFormats_NoDup.
  - apply NoDup_filter, normalizeFormats_NoDup.
  - intros f Hf. rewrite !list_elem_of_filter. unfold has_type. tauto.
  - intros Hraw f Hf.
    destruct (normalizeFormats_typed _ _ Hf) as (e & He & ->).
    rewrite !list_elem_of_filter. unfold has_type. rewrite get_withType.
    destruct (classify_known e (Hraw e He)) as [Hc|Hc]; rewrite Hc;
      [left|right]; (split; [done|]); intros [[=] _].
Qed.

Lemma partition_by_classified_type_witness :
  (withType raw_140 ∈ videoFormats three_raw ∧ withType raw_140 ∉ audioFormats three_raw)
  ∨ (withType raw_140 ∈ audioFormats three_raw ∧ withType raw_140 ∉ videoFormats three_raw).
Proof.
  destruct (partition_by_classified_type three_raw) as (_ & _ & _ & _ & Hcover).
  apply Hcover.
  - intros e He. right; right.
    apply elem_of_cons in He as [->|He]; [reflexivity|].
    apply elem_of_cons in He as [->|He]; [reflexivity|].
    apply elem_of_cons in He as [->|He]; [reflexivity|].
    by apply elem_of_nil in He.
  - vm_compute. right; left.
Defined.

(** ** Running the handlers

    The handlers are unfolded down to the primitives and the run is split
    along the ways in which the awaited promises settle. *)

Ltac run_cbn :=
  cbn -[Z.add Z.ltb Z.leb Z.eqb String.append pretty downloadUrl busy_key
        download_message fetch_message Js.toString Js.trim Js.truthy ok insert
        String.eqb].

Ltac run_handler :=
  unfold handleDownload, handleFetch, click, try_catch_finally, finally, catch,
    fetch, blob, axios_post, await, await_signal, settle_at, with_timeout,
    setTimeout_abort, clearTimeout, setDownloadingMap, setError, setLoading,
    setVideoData, update, emit, throw, getState, get_error, of_sum,
    mbind, M_bind, mret, M_ret;
  run_cbn.

Ltac case_run :=
  repeat first
    [ progress run_cbn
    | match goal with
      | |- context [match ?p with After _ _ => _ | Never => _ end] =>
          is_var p; destruct p as [? [?|?]|]
      | |- context [match ?x with inl _ => _ | inr _ => _ end] =>
          is_var x; destruct x
      | |- context [if (?a <? ?b) then _ else _] => destruct (Z.ltb_spec a b)
      | |- context [if (?a <=? ?b) then _ else _] => destruct (Z.leb_spec a b)
      | |- context [if (?a =? ?b) then _ else _] => destruct (Z.eqb_spec a b)
      | |- context [if negb (ok ?r) then _ else _] => destruct (ok r) eqn:?
      end ].

Lemma requests_app w l :
  List.filter is_request (effects w ++ l)
  = (requests w ++ List.filter is_request l)%list.
Proof. apply List.filter_app. Qed.

(** ** Downloads: one request per invocation *)

(** C1, as stated, fails: with the busy flag of the key already set by a
    first call that has not settled, a second call issues a second request. *)
Lemma handleDownload_no_inflight_guard :
  first_call.2 = Pending
  ∧ busy first_call.1 (busy_key entry_137) = true
  ∧ length (requests first_call.1) = 1%nat
  ∧ length (requests second_call.1) = 2%nat
  ∧ requests second_call.1 ≠ requests first_call.1.
Proof. vm_compute. repeat split; congruence. Qed.

(** C1, amended: [handleDownload] has no guard of its own.  Every
    invocation begins by setting the busy flag of its key, clearing the
    error, arming the abort timer and issuing its request, whether or not
    the busy flag of its key is already set: that is the state in which the
    call suspends at [fetch].  Over a whole run it issues exactly that one
    request to the download endpoint, and it never throws past its caller.
    The guard sits in [DownloadCell]: while the busy flag of the entry is
    set the cell shows no button, so a click does nothing. *)
Theorem handleDownload_always_requests (API_BASE : Js.value) (f : format)
    (net : settle http_response) (body : settle Z) (w : world) :
  requests (handleDownload API_BASE f net body w).1
    = (requests w ++ [Fetch (downloadUrl API_BASE (st w) f)])%list
  ∧ (∀ e, (handleDownload API_BASE f net body w).2 ≠ Throw e)
  ∧ (isDownloading (st w) f = true → click API_BASE f net body w = (w, Ret tt))
  ∧ ((∀ ms r, net = After ms r → horizon w < now w + ms) →
     horizon w < now w + 120000 →
       handleDownload API_BASE f net body w
       = (World (State (url (st w)) (videoData (st w)) (loading (st w))
                   (<[busy_key f := true]> (downloadingMap (st w))) "")
            (now w) (horizon w) (Some (now w + 120000))
            (effects w ++ [Fetch (downloadUrl API_BASE (st w) f)]),
          Pending)).
Proof.
  split; [|split; [|split]].
  - run_handler.
    case_run; unfold requests; cbn [effects];
      rewrite <- ?app_assoc; rewrite requests_app; reflexivity.
  - intros e. run_handler. case_run; discriminate.
  - intros Hbusy. unfold click, getState, DownloadCell, mbind, M_bind.
    by rewrite Hbusy.
  - intros Hnet Hdue. run_handler.
    destruct net as [ms r|]; [specialize (Hnet ms r eq_refl)|];
      case_run; try lia; reflexivity.
Qed.

Lemma handleDownload_always_requests_witness :
  (isDownloading (st first_call.1) entry_137 = true
   ∧ click api_example entry_137 Never Never first_call.1 = (first_call.1, Ret tt))
  ∧ handleDownload api_example entry_137 Never Never first_call.1
    = (World (State (url (st first_call.1)) (videoData (st first_call.1))
                (loading (st first_call.1))
                (<[busy_key entry_137 := true]> (downloadingMap (st first_call.1))) "")
         (now first_call.1) (horizon first_call.1) (Some (now first_call.1 + 120000))
         (effects first_call.1
          ++ [Fetch (downloadUrl api_example (st first_call.1) entry_137)]),
       Pending).
Proof.
  split.
  - split; [vm_compute; reflexivity|].
    apply (handleDownload_always_requests api_example entry_137 Never Never first_call.1).
    vm_compute; reflexivity.
  - apply (handleDownload_always_requests api_example entry_137 Never Never first_call.1).
    + intros ms r H. discriminate H.
    + vm_compute. reflexivity.
Defined.

(** ** Downloads: cleanup *)

(** A response that arrives in time with a success status and a body that
    never completes: the handler stays suspended with its flag set. *)
Lemma handleDownload_stalled (API_BASE : Js.value) (f : format)
    (resp : http_response) (ms : Z) (w : world) :
  ms < 120000 → ok resp = true →
  (handleDownload API_BASE f (After ms (inl resp)) Never w).2 = Pending
  ∧ busy (handleDownload API_BASE f (After ms (inl resp)) Never w).1 (busy_key f)
    = true.
Proof.
  intros Hms Hok. run_handler. case_run; try lia; try congruence.
  all: unfold busy; run_cbn; by rewrite lookup_insert_eq.
Qed.

(** C7, as stated, fails in its last clause: the timer is cleared before the
    body is read, so a download whose body never completes is left in
    flight for good; there is no instant at which it is found over or
    idle. *)
Lemma download_stalled_forever :
  ¬ ∃ h, (stalled_at h).2 ≠ Pending
         ∨ busy (stalled_at h).1 (busy_key entry_137) ≠ true.
Proof.
  intros [h H].
  destruct (handleDownload_stalled api_example entry_137 (Response 200 "OK") 1000
              (start loaded_state h)) as [Hp Hb]; [lia|reflexivity|].
  unfold stalled_at in H. destruct H as [H|H]; contradiction.
Qed.

(** C7, amended: whenever [handleDownload] has left its body, by a normal
    return or by any thrown value (a failed or aborted request, a
    non-success status, a failed body read, an empty payload), the handler
    itself returns normally and the busy flag of its key is cleared; and
    the exit is reached once the body read settles within the observed
    time.  A task stays in flight only while its handler is suspended.  At
    [fetch] that ends with the deadline at the latest: a run still
    suspended 120 seconds after its start has received a success response
    in time, has cleared the timer and waits for a body that has not
    settled.  The body read is not bounded: with a body that never
    completes the handler never exits. *)
Theorem handleDownload_resets_busy_flag (API_BASE : Js.value) (f : format)
    (net : settle http_response) (body : settle Z) (w : world) :
  ((handleDownload API_BASE f net body w).2 ≠ Pending →
     (handleDownload API_BASE f net body w).2 = Ret tt
     ∧ busy (handleDownload API_BASE f net body w).1 (busy_key f) = false)
  ∧ (∀ d x, body = After d x → 0 ≤ d → now w + 120000 + d ≤ horizon w →
       (handleDownload API_BASE f net body w).2 = Ret tt
       ∧ busy (handleDownload API_BASE f net body w).1 (busy_key f) = false)
  ∧ (now w + 120000 ≤ horizon w →
     (handleDownload API_BASE f net body w).2 = Pending →
       timer (handleDownload API_BASE f net body w).1 = None
       ∧ ∃ ms resp, net = After ms (inl resp) ∧ ms < 120000 ∧ ok resp = true
                    ∧ (body = Never
                       ∨ ∃ d x, body = After d x ∧ horizon w < now w + ms + d))
  ∧ (∀ ms resp, net = After ms (inl resp) → ms < 120000 → ok resp = true →
     body = Never →
       (handleDownload API_BASE f net body w).2 = Pending).
Proof.
  split; [|split; [|split]].
  - run_handler. case_run; intros Hp; try done;
      (split; [done|]); unfold busy; run_cbn; by rewrite lookup_insert_eq.
  - intros d x -> Hd Hh. run_handler.
    case_run; try lia;
      (split; [done|]); unfold busy; run_cbn; by rewrite lookup_insert_eq.
  - intros Hh. run_handler.
    case_run; intros Hp; try done; try lia;
      (split; [done|]); eexists _, _;
      (split; [reflexivity|]); (split; [lia|]); (split; [done|]); eauto 6.
  - intros ms resp -> Hms Hok ->. run_handler.
    case_run; try lia; try congruence; done.
Qed.

Lemma handleDownload_resets_busy_flag_witness :
  (timed_out.2 = Ret tt ∧ busy timed_out.1 (busy_key entry_137) = false)
  ∧ (slow_body.2 = Ret tt ∧ busy slow_body.1 (busy_key entry_137) = false)
  ∧ timer stalled_body.1 = None
  ∧ stalled_body.2 = Pending.
Proof.
  split; [|split; [|split]].
  - apply (handleDownload_resets_busy_flag api_example entry_137 Never Never
             (start loaded_state 120000)).
    vm_compute. congruence.
  - apply (handleDownload_resets_busy_flag api_example entry_137
             (After 1000 (inl (Response 200 "OK"))) (After 500000 (inl 1024))
             (start loaded_state 1000000)) with (d := 500000) (x := inl 1024).
    + reflexivity.
    + lia.
    + vm_compute. congruence.
  - apply (handleDownload_resets_busy_flag api_example entry_137
             (After 1000 (inl (Response 200 "OK"))) Never
             (start loaded_state 1000000)).
    + vm_compute. congruence.
    + vm_compute. reflexivity.
  - apply (handleDownload_resets_busy_flag api_example entry_137
             (After 1000 (inl (Response 200 "OK"))) Never
             (start loaded_state 1000000))
      with (ms := 1000) (resp := Response 200 "OK").
    + reflexivity.
    + lia.
    + reflexivity.
    + reflexivity.
Defined.

(** ** Failure messages *)




(** ** Downloads: the deadline *)

(** C9, as stated, fails: the timer is cleared as soon as [fetch] resolves,
    so a download that lasts longer than 120 seconds because of its body is
    neither aborted nor reported as a timeout; it is saved.  A body that
    never completes leaves the handler suspended with the busy flag set. *)
Lemma download_deadline_ends_with_headers :
  slow_body.2 = Ret tt
  ∧ now slow_body.1 = 501000
  ∧ 120000 < now slow_body.1
  ∧ (Abort ∉ effects slow_body.1)
  ∧ (SaveAs "My clip.mp4" ∈ effects slow_body.1)
  ∧ error (st slow_body.1) = ""
  ∧ stalled_body.2 = Pending
  ∧ timer stalled_body.1 = None
  ∧ busy stalled_body.1 (busy_key entry_137) = true.
Proof.
  assert (He : effects slow_body.1
               = [Fetch (downloadUrl api_example loaded_state entry_137);
                  SaveAs "My clip.mp4"; RevokeLater 100]) by (vm_compute; reflexivity).
  rewrite He.
  split; [vm_compute; reflexivity|]. split; [vm_compute; reflexivity|].
  split; [vm_compute; reflexivity|].
  split; [rewrite !elem_of_cons, elem_of_nil; intros [|[|[|]]]; done|].
  split; [right; left|].
  vm_compute. repeat split; reflexivity.
Qed.

(** C9, amended: if the response of the download request has not arrived
    120 seconds after it was issued, the request is aborted, the timeout
    message is surfaced, no file is saved and the busy flag is cleared.
    The deadline ends when [fetch] resolves: from then on the timer is
    cleared, and whatever the body read does no abort is issued. *)
Theorem download_deadline_covers_fetch_only (API_BASE : Js.value) (f : format)
    (net : settle http_response) (body : settle Z) (w : world) :
  ((net = Never ∨ ∃ ms x, net = After ms x ∧ 120000 ≤ ms) →
   now w + 120000 ≤ horizon w →
     (handleDownload API_BASE f net body w).2 = Ret tt
     ∧ effects (handleDownload API_BASE f net body w).1
       = (effects w ++ [Fetch (downloadUrl API_BASE (st w) f); Abort])%list
     ∧ now (handleDownload API_BASE f net body w).1 = now w + 120000
     ∧ error (st (handleDownload API_BASE f net body w).1)
       = "Download timeout. The video might be too large."
     ∧ busy (handleDownload API_BASE f net body w).1 (busy_key f) = false)
  ∧ (∀ ms resp, net = After ms (inl resp) → ms < 120000 →
     now w + ms ≤ horizon w →
       timer (handleDownload API_BASE f net body w).1 = None
       ∧ ∃ rest, effects (handleDownload API_BASE f net body w).1
                 = (effects w ++ Fetch (downloadUrl API_BASE (st w) f) :: rest)%list
                 ∧ (Abort ∉ rest)).
Proof.
  split.
  - intros [->|(ms & x & -> & Hms)] Hh; run_handler; case_run; try lia;
      unfold busy; run_cbn; rewrite lookup_insert_eq, <- app_assoc; done.
  - intros ms resp -> Hms Hh. run_handler.
    case_run; try lia; (split; [done|]); rewrite <- ?app_assoc;
      eexists; (split; [reflexivity|]);
      rewrite list_elem_of_In; cbn; intuition discriminate.
Qed.

Lemma download_deadline_covers_fetch_only_witness :
  (timed_out.2 = Ret tt
   ∧ effects timed_out.1
     = [Fetch (downloadUrl api_example loaded_state entry_137); Abort]
   ∧ now timed_out.1 = 120000
   ∧ error (st timed_out.1) = "Download timeout. The video might be too large."
   ∧ busy timed_out.1 (busy_key entry_137) = false)
  ∧ timer slow_body.1 = None.
Proof.
  split.
  - apply (download_deadline_covers_fetch_only api_example entry_137 Never Never
             (start loaded_state 120000)).
    + left. reflexivity.
    + vm_compute. congruence.
  - apply (download_deadline_covers_fetch_only api_example entry_137
             (After 1000 (inl (Response 200 "OK"))) (After 500000 (inl 1024))
             (start loaded_state 1000000)) with (ms := 1000) (resp := Response 200 "OK").
    + reflexivity.
    + lia.
    + vm_compute. congruence.
Defined.

(** ** Metadata *)

(** What the [catch] block of [handleFetch] makes of an [Error] thrown by
    the [try] block itself: its message is only searched for "Network
    Error". *)
Lemma fetch_message_Error msg :
  fetch_message (Error msg)
  = "Failed to fetch video info. "
    ++ (if Js.includes "Network Error" msg
        then "Cannot connect to server. Check your internet connection."
        else "Please check the URL and try again.").
Proof. unfold fetch_message. cbn. by destruct (Js.includes _ _). Qed.

(** C6: on the response [{error: "Video unavailable"}] the handler throws
    an [Error] carrying the text and its own [catch] block then replaces
    it by the generic suffix; the text reaches the user only when it comes
    in the body of a rejected response.  The metadata slot is left as the
    empty object, from which no formats are produced. *)
Theorem handleFetch_drops_server_message :
  fetch_unavailable.2 = Ret tt
  ∧ error (st fetch_unavailable.1)
    = "Failed to fetch video info. Please check the URL and try again."
  ∧ error (st fetch_unavailable.1) ≠ "Failed to fetch video info. Video unavailable"
  ∧ videoData (st fetch_unavailable.1) = empty_object
  ∧ normalizeFormats (opt_formats (videoData (st fetch_unavailable.1))) = []
  ∧ error (st fetch_rejected_unavailable.1)
    = "Failed to fetch video info. Video unavailable".
Proof. vm_compute. repeat split; congruence. Qed.

(** C10: a response whose [formats] is truthy is stored as the metadata
    and no error is surfaced, whatever its [error] field holds; the [error]
    field is looked at only when [formats] is falsy, and then the failure
    path runs: the slot becomes the empty object and the message is the
    one for an [Error] built from the field if it is truthy, and from the
    fixed text otherwise. *)
Theorem handleFetch_formats_take_precedence (API_BASE : Js.value) (w : world)
    (d : info) (t : Z) :
  Js.trim (url (st w)) ≠ "" → t < 30000 → now w + t ≤ horizon w →
  (raw_truthy (formats d) = true →
     (handleFetch API_BASE (After t (inl (DataObject d))) w).2 = Ret tt
     ∧ videoData (st (handleFetch API_BASE (After t (inl (DataObject d))) w).1)
       = DataObject d
     ∧ error (st (handleFetch API_BASE (After t (inl (DataObject d))) w).1) = ""
     ∧ loading (st (handleFetch API_BASE (After t (inl (DataObject d))) w).1) = false)
  ∧ (raw_truthy (formats d) = false →
     (handleFetch API_BASE (After t (inl (DataObject d))) w).2 = Ret tt
     ∧ videoData (st (handleFetch API_BASE (After t (inl (DataObject d))) w).1)
       = empty_object
     ∧ error (st (handleFetch API_BASE (After t (inl (DataObject d))) w).1)
       = fetch_message
           (Error (if Js.truthy (error_field d) then Js.toString (error_field d)
                   else "No video data received from server"))
     ∧ loading (st (handleFetch API_BASE (After t (inl (DataObject d))) w).1) = false).
Proof.
  intros Hurl Ht Hh. apply String.eqb_neq in Hurl.
  split; intros Hf; run_handler; rewrite Hurl; case_run; try lia;
    rewrite Hf; run_cbn; [done|].
  destruct (Js.truthy (error_field d)); done.
Qed.

Lemma handleFetch_formats_take_precedence_witness :
  (Js.truthy (error_field formats_and_error) = true
   ∧ (handleFetch api_example (After 800 (inl (DataObject formats_and_error)))
        (start loaded_state 60000)).2 = Ret tt
   ∧ videoData (st (handleFetch api_example
                      (After 800 (inl (DataObject formats_and_error)))
                      (start loaded_state 60000)).1)
     = DataObject formats_and_error
   ∧ error (st (handleFetch api_example
                  (After 800 (inl (DataObject formats_and_error)))
                  (start loaded_state 60000)).1) = ""
   ∧ loading (st (handleFetch api_example
                    (After 800 (inl (DataObject formats_and_error)))
                    (start loaded_state 60000)).1) = false)
  ∧ videoData (st fetch_unavailable.1) = empty_object.
Proof.
  split.
  - split; [reflexivity|].
    apply (handleFetch_formats_take_precedence api_example (start loaded_state 60000)
             formats_and_error 800).
    + vm_compute. congruence.
    + lia.
    + vm_compute. congruence.
    + reflexivity.
  - apply (handleFetch_formats_take_precedence api_example (start loaded_state 60000)
             unavailable_info 800).
    + vm_compute. congruence.
    + lia.
    + vm_compute. congruence.
    + reflexivity.
Defined.

(** * Further properties *)

(** ** Normalisation *)

Lemma get_withType_other f p : p ≠ "type" → Js.get (withType f) p = Js.get f p.
Proof. intros Hp. unfold withType, Js.get. by rewrite lookup_insert_ne. Qed.

Lemma markers_withType f :
  video_markers (withType f) = video_markers f
  ∧ audio_markers (withType f) = audio_markers f.
Proof.
  unfold video_markers, audio_markers.
  by rewrite !get_withType_other.
Qed.

Lemma classify_truthy f : Js.truthy (classify f) = true.
Proof.
  unfold classify, Js.or.
  destruct (_ && _); [done|]. destruct (_ && _); [done|].
  by destruct (Js.truthy (Js.get f "type")) eqn:E.
Qed.

(** Classifying an entry that has been classified changes nothing. *)
Lemma classify_withType f : classify (withType f) = classify f.
Proof.
  destruct (decide (classify f = Js.Str "video")) as [Hv|Hv].
  { rewrite Hv. apply classify_declared_video. by rewrite get_withType. }
  destruct (decide (classify f = Js.Str "audio")) as [Ha|Ha].
  { rewrite Ha. apply classify_declared_audio. by rewrite get_withType. }
  rewrite classify_by_markers by (by rewrite get_withType).
  assert (Hfv : Js.get f "type" ≠ Js.Str "video").
  { intros H. by apply classify_declared_video in H. }
  assert (Hfa : Js.get f "type" ≠ Js.Str "audio").
  { intros H. by apply classify_declared_audio in H. }
  rewrite (classify_by_markers f) in * by done.
  unfold spec_classify in *.
  destruct (markers_withType f) as [-> ->]. rewrite get_withType.
  rewrite (classify_by_markers f) by done. unfold spec_classify.
  destruct (video_markers f && negb (audio_markers f)); [done|].
  destruct (audio_markers f && negb (video_markers f)); [done|].
  unfold Js.or in *.
  destruct (Js.truthy (Js.get f "type")) eqn:E; [by rewrite E|done].
Qed.

Lemma withType_idem f : withType (withType f) = withType f.
Proof.
  unfold withType at 1. rewrite classify_withType.
  unfold withType. apply insert_insert_eq.
Qed.

Lemma filter_seen_distinct (seen : gset Js.value) (l : list format) :
  NoDup (keyOf <$> l) → (∀ f, f ∈ l → keyOf f ∉ seen) → filter_seen seen l = l.
Proof.
  revert seen. induction l as [|h l IH]; intros seen Hnd Hs; cbn [filter_seen]; [done|].
  rewrite fmap_cons in Hnd. apply NoDup_cons in Hnd as [Hh Hnd].
  rewrite decide_False by (apply Hs; left).
  f_equal. apply IH; [done|].
  intros f Hf. rewrite elem_of_union, elem_of_singleton.
  intros [Hk|Hk].
  - apply Hh. rewrite <- Hk. apply list_elem_of_fmap. eauto.
  - eapply Hs; [right; exact Hf|done].
Qed.

Lemma filter_seen_all_seen (seen : gset Js.value) (l : list format) :
  (∀ f, f ∈ l → keyOf f ∈ seen) → filter_seen seen l = [].
Proof.
  induction l as [|h l IH]; intros Hs; cbn [filter_seen]; [done|].
  rewrite decide_True by (apply Hs; left).
  apply IH. intros f Hf. apply Hs. by right.
Qed.

Lemma keyOf_present f :
  present (Js.get f "format_id") → keyOf (withType f) = Js.get f "format_id".
Proof.
  intros [Hu Hn]. unfold keyOf. rewrite get_withType_other by done.
  by destruct (Js.get f "format_id").
Qed.

(** X1: normalising the result of a normalisation returns it unchanged,
    whatever the entries are. *)
Theorem normalizeFormats_idempotent (raw : raw_formats) :
  normalizeFormats (RawArray (normalizeFormats raw)) = normalizeFormats raw.
Proof.
  unfold normalizeFormats at 1. unfold withTypes. cbn [as_list].
  assert (Hid : withType <$> normalizeFormats raw = normalizeFormats raw).
  { rewrite <- (list_fmap_id (normalizeFormats raw)) at 2.
    apply list_fmap_ext. intros i f Hf.
    apply list_elem_of_lookup_2, normalizeFormats_typed in Hf as (e & _ & ->).
    apply withType_idem. }
  rewrite Hid. apply filter_seen_distinct.
  - apply filter_seen_keys_NoDup.
  - intros f _. apply not_elem_of_empty.
Qed.

(** X2: the result is empty exactly when there is nothing to normalise: for
    anything that is not an array both sequences are empty, and the first
    entry of a non-empty array always survives, at the head. *)
Theorem normalizeFormats_empty_iff (raw : raw_formats) :
  (normalizeFormats raw = [] ↔ as_list raw = [])
  ∧ (∀ v, videoFormats (RawOther v) = [] ∧ audioFormats (RawOther v) = [])
  ∧ (∀ e l, raw = RawArray (e :: l) →
       ∃ rest, normalizeFormats raw = withType e :: rest).
Proof.
  split; [|split].
  - unfold normalizeFormats, withTypes. destruct (as_list raw) as [|e l]; [done|].
    rewrite fmap_cons. cbn [filter_seen].
    rewrite decide_False by apply not_elem_of_empty. done.
  - done.
  - intros e l ->. unfold normalizeFormats, withTypes. cbn [as_list].
    rewrite fmap_cons. cbn [filter_seen].
    rewrite decide_False by apply not_elem_of_empty. eauto.
Qed.

Lemma normalizeFormats_empty_iff_witness :
  ∃ rest, normalizeFormats three_raw = withType raw_137 :: rest.
Proof.
  apply (normalizeFormats_empty_iff three_raw) with (l := [raw_140; raw_137_again]).
  reflexivity.
Defined.

(** X3: normalisation only rewrites the type: every survivor is one of the
    raw entries with its [type] replaced by the classified type, all other
    properties being those of the raw entry; and the classified type is
    never falsy. *)
Theorem normalizeFormats_preserves_fields (raw : raw_formats) (f : format) :
  f ∈ normalizeFormats raw →
  Js.truthy (Js.get f "type") = true
  ∧ ∃ e, e ∈ as_list raw
         ∧ Js.get f "type" = classify e
         ∧ ∀ p, p ≠ "type" → f !! p = e !! p.
Proof.
  intros (e & He & ->)%normalizeFormats_typed.
  rewrite get_withType. split; [apply classify_truthy|].
  exists e. repeat split; [done|].
  intros p Hp. unfold withType. by rewrite lookup_insert_ne.
Qed.

Lemma normalizeFormats_preserves_fields_witness :
  Js.truthy (Js.get (withType raw_140) "type") = true
  ∧ ∃ e, e ∈ as_list three_raw
         ∧ Js.get (withType raw_140) "type" = classify e
         ∧ ∀ p, p ≠ "type" → withType raw_140 !! p = e !! p.
Proof.
  apply (normalizeFormats_preserves_fields three_raw (withType raw_140)).
  vm_compute. right; left.
Defined.

(** X4: entries that repeat the server identifier of the first entry are
    dropped whatever else they contain: of a list whose entries all carry
    the same identifier only the first survives. *)
Theorem normalizeFormats_same_id (e : format) (l : list format) :
  present (Js.get e "format_id") →
  (∀ e', e' ∈ l → Js.get e' "format_id" = Js.get e "format_id") →
  normalizeFormats (RawArray (e :: l)) = [withType e].
Proof.
  intros Hp Hl. unfold normalizeFormats, withTypes. cbn [as_list].
  rewrite fmap_cons. cbn [filter_seen].
  rewrite decide_False by apply not_elem_of_empty.
  f_equal. apply filter_seen_all_seen.
  intros f (e' & -> & He')%list_elem_of_fmap.
  rewrite !keyOf_present; [|done|by rewrite (Hl e' He')].
  rewrite (Hl e' He'). set_solver.
Qed.

Lemma normalizeFormats_same_id_witness :
  normalizeFormats (RawArray [raw_137; raw_137_again]) = [withType raw_137].
Proof.
  apply (normalizeFormats_same_id raw_137 [raw_137_again]).
  - split; vm_compute; congruence.
  - intros e' He'. apply list_elem_of_singleton in He' as ->. reflexivity.
Defined.

(** X5: nothing is dropped when the raw entries carry pairwise distinct
    server identifiers: the result is the input with the types filled in. *)
Theorem normalizeFormats_distinct_ids (l : list format) :
  (∀ e, e ∈ l → present (Js.get e "format_id")) →
  NoDup ((λ e, Js.get e "format_id") <$> l) →
  normalizeFormats (RawArray l) = withType <$> l.
Proof.
  intros Hp Hnd. unfold normalizeFormats, withTypes. cbn [as_list].
  apply filter_seen_distinct; [|intros f _; apply not_elem_of_empty].
  rewrite <- list_fmap_compose.
  erewrite list_fmap_ext; [exact Hnd|].
  intros i e He. cbn. apply keyOf_present, Hp.
  by eapply list_elem_of_lookup_2.
Qed.

Lemma normalizeFormats_distinct_ids_witness :
  normalizeFormats (RawArray [raw_137; raw_140]) = [withType raw_137; withType raw_140].
Proof.
  apply (normalizeFormats_distinct_ids [raw_137; raw_140]).
  - intros e He. apply elem_of_cons in He as [->|He]; [split; vm_compute; congruence|].
    apply list_elem_of_singleton in He as ->. split; vm_compute; congruence.
  - vm_compute. repeat constructor; rewrite ?elem_of_cons, ?elem_of_nil;
      intuition congruence.
Defined.

Lemma filter_disjoint_length {A} (P Q : A → Prop) `{!∀ x, Decision (P x)}
    `{!∀ x, Decision (Q x)} (l : list A) :
  (∀ x, P x → Q x → False) →
  (length (filter P l) + length (filter Q l) ≤ length l)%nat.
Proof.
  intros Hd. induction l as [|x l IH]; [done|].
  rewrite !filter_cons.
  destruct (decide (P x)) as [Hp|Hp], (decide (Q x)) as [Hq|Hq]; cbn; try lia.
  destruct (Hd x Hp Hq).
Qed.

(** X6: the counts shown on the two tabs never add up to more than the
    number of surviving entries, which never exceeds the number of raw
    entries. *)
Theorem tab_counts_bounded (raw : raw_formats) :
  (length (videoFormats raw) + length (audioFormats raw)
   ≤ length (normalizeFormats raw))%nat
  ∧ (length (normalizeFormats raw) ≤ length (as_list raw))%nat.
Proof.
  split.
  - apply filter_disjoint_length. unfold has_type. intros f Hv Ha. congruence.
  - unfold normalizeFormats, withTypes.
    etrans; [apply sublist_length, filter_seen_sublist|].
    by rewrite length_fmap.
Qed.

(** ** Fetching the metadata *)

Lemma fetch_message_nonempty err : fetch_message err ≠ "".
Proof.
  unfold fetch_message.
  repeat (match goal with |- context [if ?b then _ else _] => destruct b end);
    discriminate.
Qed.

(** X7: with a blank URL [handleFetch] does nothing at all; otherwise every
    run issues exactly one request, the POST of the URL to the info
    endpoint, and nothing else leaves the component. *)
Theorem handleFetch_one_request (API_BASE : Js.value) (net : settle data) (w : world) :
  (Js.trim (url (st w)) = "" → handleFetch API_BASE net w = (w, Ret tt))
  ∧ (Js.trim (url (st w)) ≠ "" →
       effects (handleFetch API_BASE net w).1
       = (effects w ++ [Post (Js.toString API_BASE ++ "/api/info") (url (st w))])%list).
Proof.
  split; intros Hurl.
  - unfold handleFetch, getState, mbind, M_bind. by rewrite Hurl.
  - apply String.eqb_neq in Hurl. run_handler. rewrite Hurl.
    case_run;
      repeat (match goal with
              | |- context [match ?x with DataObject _ => _ | DataValue _ => _ end] =>
                  destruct x as [?|[]]
              | |- context [if ?b then _ else _] => destruct b
              end; run_cbn);
      reflexivity.
Qed.

Lemma handleFetch_one_request_witness :
  handleFetch api_example Never (start (State "  " (DataValue Js.Null) false ∅ "") 60000)
  = (start (State "  " (DataValue Js.Null) false ∅ "") 60000, Ret tt)
  ∧ handleFetch api_example Never (start nbsp_state 60000)
    = (start nbsp_state 60000, Ret tt)
  ∧ effects fetch_unavailable.1
    = [Post "https://api.example.com/api/info" "https://youtu.be/abc"].
Proof.
  split; [|split].
  - apply (handleFetch_one_request api_example Never
             (start (State "  " (DataValue Js.Null) false ∅ "") 60000)).
    reflexivity.
  - apply (handleFetch_one_request api_example Never (start nbsp_state 60000)).
    reflexivity.
  - apply (handleFetch_one_request api_example (After 800 (inl unavailable))
             (start loaded_state 60000)).
    vm_compute. congruence.
Defined.

(** X8: [handleFetch] never touches the busy flags of the downloads nor
    the URL, and never throws past its caller, however the request ends. *)
Theorem handleFetch_keeps_downloads (API_BASE : Js.value) (net : settle data)
    (w : world) :
  downloadingMap (st (handleFetch API_BASE net w).1) = downloadingMap (st w)
  ∧ url (st (handleFetch API_BASE net w).1) = url (st w)
  ∧ ∀ e, (handleFetch API_BASE net w).2 ≠ Throw e.
Proof.
  run_handler. destruct (String.eqb _ _); [by run_cbn|].
  case_run;
    repeat (match goal with
            | |- context [match ?x with DataObject _ => _ | DataValue _ => _ end] =>
                destruct x as [?|[]]
            | |- context [if ?b then _ else _] => destruct b
            end; run_cbn);
    done.
Qed.

(** X9: what [handleFetch] writes, for a non-blank URL.  Before it issues
    its request it sets [loading], sets [videoData] to [null] and clears the
    error: that is the state in which it suspends.  When it is over it has
    set [loading] to false and has either stored a response object with
    truthy formats in [videoData], or set [videoData] to the empty object
    together with a non-empty error message. *)
Theorem handleFetch_outcomes (API_BASE : Js.value) (net : settle data) (w : world) :
  Js.trim (url (st w)) ≠ "" →
  ((handleFetch API_BASE net w).2 = Pending →
     (handleFetch API_BASE net w).1
     = World (State (url (st w)) (DataValue Js.Null) true (downloadingMap (st w)) "")
         (now w) (horizon w) (timer w)
         (effects w ++ [Post (Js.toString API_BASE +:+ "/api/info") (url (st w))]))
  ∧ ((handleFetch API_BASE net w).2 ≠ Pending →
       loading (st (handleFetch API_BASE net w).1) = false
       ∧ ((∃ d, videoData (st (handleFetch API_BASE net w).1) = DataObject d
                ∧ raw_truthy (formats d) = true)
          ∨ (videoData (st (handleFetch API_BASE net w).1) = empty_object
             ∧ error (st (handleFetch API_BASE net w).1) ≠ ""
             ∧ ∃ err, error (st (handleFetch API_BASE net w).1)
                      = fetch_message err))).
Proof.
  intros Hurl. apply String.eqb_neq in Hurl.
  pose proof fetch_message_nonempty as Hne.
  split; run_handler; rewrite Hurl;
    case_run;
      repeat (match goal with
              | |- context [match ?x with DataObject _ => _ | DataValue _ => _ end] =>
                  destruct x as [?|[]]
              | |- context [if ?b then _ else _] => destruct b eqn:?
              end; run_cbn);
      intros Hp; try done;
      try match goal with
          | H : _ && Js.truthy Js.Undefined = true |- _ =>
              rewrite andb_false_r in H; discriminate H
          end;
      (split; [done|]); eauto 6.
Qed.

Lemma handleFetch_outcomes_witness :
  (handleFetch api_example Never (start loaded_state 1000)).1
  = World (State "https://youtu.be/abc" (DataValue Js.Null) true ∅ "") 0 1000 None
      [Post "https://api.example.com/api/info" "https://youtu.be/abc"]
  ∧ loading (st fetch_unavailable.1) = false
  ∧ ((∃ d, videoData (st fetch_unavailable.1) = DataObject d
           ∧ raw_truthy (formats d) = true)
     ∨ (videoData (st fetch_unavailable.1) = empty_object
        ∧ error (st fetch_unavailable.1) ≠ ""
        ∧ ∃ err, error (st fetch_unavailable.1) = fetch_message err)).
Proof.
  split.
  - apply (handleFetch_outcomes api_example Never (start loaded_state 1000)).
    + vm_compute. congruence.
    + vm_compute. reflexivity.
  - apply (handleFetch_outcomes api_example (After 800 (inl unavailable))
             (start loaded_state 60000)).
    + vm_compute. congruence.
    + vm_compute. congruence.
Defined.

(** X10: a request to the info endpoint that has not settled after 30
    seconds ends the fetch with the timeout message and the empty slot. *)
Theorem handleFetch_timeout (API_BASE : Js.value) (net : settle data) (w : world) :
  Js.trim (url (st w)) ≠ "" →
  (net = Never ∨ ∃ t x, net = After t x ∧ 30000 ≤ t) →
  now w + 30000 ≤ horizon w →
  (handleFetch API_BASE net w).2 = Ret tt
  ∧ error (st (handleFetch API_BASE net w).1)
    = "Failed to fetch video info. Request timeout. Please try again."
  ∧ videoData (st (handleFetch API_BASE net w).1) = empty_object
  ∧ loading (st (handleFetch API_BASE net w).1) = false
  ∧ now (handleFetch API_BASE net w).1 = now w + 30000.
Proof.
  intros Hurl Hnet Hh. apply String.eqb_neq in Hurl.
  destruct Hnet as [->|(t & x & -> & Ht)];
    run_handler; rewrite Hurl; case_run; try lia; done.
Qed.

Lemma handleFetch_timeout_witness :
  error (st (handleFetch api_example Never (start loaded_state 60000)).1)
  = "Failed to fetch video info. Request timeout. Please try again."
  ∧ now (handleFetch api_example Never (start loaded_state 60000)).1 = 30000.
Proof.
  destruct (handleFetch_timeout api_example Never (start loaded_state 60000))
    as (_ & He & _ & _ & Hn).
  - vm_compute. congruence.
  - left. reflexivity.
  - vm_compute. congruence.
  - split; [exact He|exact Hn].
Defined.

(** X11: when the request is rejected in time, the message is chosen from
    the rejection: an error text in the body of the rejected response is
    surfaced verbatim after the prefix; without one, a message containing
    "Network Error" surfaces the connectivity text.  In both cases the slot
    becomes the empty object. *)
Theorem handleFetch_rejected (API_BASE : Js.value) (err : exn) (t : Z) (w : world) :
  Js.trim (url (st w)) ≠ "" → t < 30000 → now w + t ≤ horizon w →
  code err ≠ Js.Str "ECONNABORTED" →
  videoData (st (handleFetch API_BASE (After t (inr err)) w).1) = empty_object
  ∧ (Js.truthy (response_error err) = true →
       error (st (handleFetch API_BASE (After t (inr err)) w).1)
       = "Failed to fetch video info. " ++ Js.toString (response_error err))
  ∧ (Js.truthy (response_error err) = false →
     Js.includes "Network Error" (message err) = true →
       error (st (handleFetch API_BASE (After t (inr err)) w).1)
       = "Failed to fetch video info. Cannot connect to server. Check your internet connection.").
Proof.
  intros Hurl Ht Hh Hc. apply String.eqb_neq in Hurl.
  run_handler. rewrite Hurl. case_run; try lia.
  unfold fetch_message, Js.strict_eq. rewrite bool_decide_eq_false_2 by done.
  split; [done|]. split.
  - by intros ->.
  - by intros -> ->.
Qed.

Lemma handleFetch_rejected_witness :
  error (st fetch_rejected_unavailable.1)
  = "Failed to fetch video info. Video unavailable"
  ∧ error (st (handleFetch api_example (After 50 (inr network_error))
                 (start loaded_state 60000)).1)
    = "Failed to fetch video info. Cannot connect to server. Check your internet connection.".
Proof.
  split.
  - apply (handleFetch_rejected api_example
             (Exn "AxiosError" "Request failed with status code 400"
                (Js.Str "ERR_BAD_REQUEST") (Some unavailable))
             800 (start loaded_state 60000)).
    + vm_compute. congruence.
    + lia.
    + vm_compute. congruence.
    + vm_compute. congruence.
    + reflexivity.
  - apply (handleFetch_rejected api_example network_error 50 (start loaded_state 60000)).
    + vm_compute. congruence.
    + lia.
    + vm_compute. congruence.
    + vm_compute. congruence.
    + reflexivity.
    + reflexivity.
Defined.

(** X12: a successful response that is not an object with formats and
    carries no error text either, be it [null], another primitive, or an
    object with both fields falsy, ends the fetch with the generic
    message. *)
Theorem handleFetch_malformed (API_BASE : Js.value) (x : data) (t : Z) (w : world) :
  Js.trim (url (st w)) ≠ "" → t < 30000 → now w + t ≤ horizon w →
  raw_truthy (opt_formats x) = false → Js.truthy (opt_error x) = false →
  (handleFetch API_BASE (After t (inl x)) w).2 = Ret tt
  ∧ error (st (handleFetch API_BASE (After t (inl x)) w).1)
    = "Failed to fetch video info. Please check the URL and try again."
  ∧ videoData (st (handleFetch API_BASE (After t (inl x)) w).1) = empty_object.
Proof.
  intros Hurl Ht Hh Hf He. apply String.eqb_neq in Hurl.
  run_handler. rewrite Hurl. case_run; try lia.
  rewrite Hf, andb_false_r.
  destruct x as [d|v]; cbn in He; run_cbn.
  - rewrite He. run_cbn. done.
  - destruct v; done.
Qed.

Lemma handleFetch_malformed_witness :
  error (st (handleFetch api_example (After 50 (inl (DataValue Js.Null)))
               (start loaded_state 60000)).1)
  = "Failed to fetch video info. Please check the URL and try again.".
Proof.
  apply (handleFetch_malformed api_example (DataValue Js.Null) 50
           (start loaded_state 60000)).
  - vm_compute. congruence.
  - lia.
  - vm_compute. congruence.
  - reflexivity.
  - reflexivity.
Defined.

(** X13: any key other than Enter does nothing in the URL field.  The
    Fetch button calls nothing while it is disabled, in particular while a
    fetch is loading; the Enter key has no such gate and starts another
    request even then. *)
Theorem handleEnter_ungated (API_BASE : Js.value) (key : string) (net : settle data)
    (w : world) :
  (key ≠ "Enter" → handleEnter API_BASE key net w = (w, Ret tt))
  ∧ (fetch_disabled (st w) = true → click_fetch API_BASE net w = (w, Ret tt))
  ∧ (fetch_disabled (st w) = false →
       click_fetch API_BASE net w = handleFetch API_BASE net w)
  ∧ (loading (st w) = true → Js.trim (url (st w)) ≠ "" →
       fetch_disabled (st w) = true
       ∧ effects (handleEnter API_BASE "Enter" net w).1
         = (effects w ++ [Post (Js.toString API_BASE ++ "/api/info") (url (st w))])%list).
Proof.
  split; [|split; [|split]].
  - intros Hk. unfold handleEnter. apply String.eqb_neq in Hk. by rewrite Hk.
  - intros Hd. unfold click_fetch, getState, mbind, M_bind. by rewrite Hd.
  - intros Hd. unfold click_fetch, getState, mbind, M_bind. by rewrite Hd.
  - intros Hl Hurl. split; [unfold fetch_disabled; by rewrite Hl|].
    unfold handleEnter. cbn [String.eqb Ascii.eqb Bool.eqb].
    apply String.eqb_neq in Hurl. run_handler. rewrite Hurl.
    case_run;
      repeat (match goal with
              | |- context [match ?x with DataObject _ => _ | DataValue _ => _ end] =>
                  destruct x as [?|[]]
              | |- context [if ?b then _ else _] => destruct b
              end; run_cbn);
      reflexivity.
Qed.

Lemma handleEnter_ungated_witness :
  handleEnter api_example "a" Never (start loading_state 0)
  = (start loading_state 0, Ret tt)
  ∧ click_fetch api_example Never (start loading_state 0)
    = (start loading_state 0, Ret tt)
  ∧ click_fetch api_example Never (start nbsp_state 0) = (start nbsp_state 0, Ret tt)
  ∧ effects (handleEnter api_example "Enter" Never (start loading_state 0)).1
    = [Post "https://api.example.com/api/info" "https://youtu.be/abc"].
Proof.
  destruct (handleEnter_ungated api_example "a" Never (start loading_state 0))
    as (Hkey & Hoff & _ & Hload).
  split; [apply Hkey; vm_compute; congruence|].
  split; [apply Hoff; reflexivity|].
  split.
  - destruct (handleEnter_ungated api_example "a" Never (start nbsp_state 0))
      as (_ & Hblank & _).
    apply Hblank. reflexivity.
  - apply Hload; [reflexivity|vm_compute; congruence].
Defined.

(** X14: what the view shows when [handleFetch] ends.  After a failure,
    where it leaves the empty object, the results are hidden and the error
    alert is shown.  The results are shown only for a stored response whose
    title is truthy: a response that arrives in time with truthy formats is
    shown exactly when its title is truthy, so formats without a title show
    nothing. *)
Theorem view_after_fetch (API_BASE : Js.value) (net : settle data) (w : world) :
  Js.trim (url (st w)) ≠ "" →
  (handleFetch API_BASE net w).2 ≠ Pending →
  (videoData (st (handleFetch API_BASE net w).1) = empty_object →
     shows_results (st (handleFetch API_BASE net w).1) = false
     ∧ shows_alert (st (handleFetch API_BASE net w).1) = true)
  ∧ (shows_results (st (handleFetch API_BASE net w).1) = true →
       ∃ d, videoData (st (handleFetch API_BASE net w).1) = DataObject d
            ∧ Js.truthy (title d) = true ∧ raw_truthy (formats d) = true)
  ∧ (∀ t d, net = After t (inl (DataObject d)) → t < 30000 →
       raw_truthy (formats d) = true →
       shows_results (st (handleFetch API_BASE net w).1) = Js.truthy (title d)).
Proof.
  intros Hurl. apply String.eqb_neq in Hurl.
  pose proof fetch_message_nonempty as Hne.
  unfold shows_alert, shows_results.
  run_handler; rewrite Hurl;
    case_run;
      repeat (match goal with
              | |- context [match ?x with DataObject _ => _ | DataValue _ => _ end] =>
                  destruct x as [?|[]]
              | |- context [if ?b then _ else _] => destruct b eqn:?
              end; run_cbn);
      intros Hp; try done;
      try match goal with
          | H : _ && Js.truthy Js.Undefined = true |- _ =>
              rewrite andb_false_r in H; discriminate H
          end.
  all: split;
    [ intros Hv;
      first [ injection Hv as Hd; subst; discriminate
            | split; [done|]; apply negb_true_iff, String.eqb_neq, Hne ]
    | split;
      [ intros Ht; first [discriminate Ht | eauto]
      | intros t0 d0 Hnet Ht0 Hf0;
        first [ discriminate Hnet
              | injection Hnet as -> ->; first [reflexivity | congruence | lia]
              | injection Hnet as -> _; lia ] ] ].
Qed.

Lemma view_after_fetch_witness :
  shows_results (st fetch_unavailable.1) = false
  ∧ shows_alert (st fetch_unavailable.1) = true.
Proof.
  destruct (view_after_fetch api_example (After 800 (inl unavailable))
              (start loaded_state 60000)) as [Hfail _].
  - vm_compute. congruence.
  - vm_compute. congruence.
  - apply Hfail. vm_compute. reflexivity.
Defined.

(** ** Downloading *)

Lemma download_message_Error msg :
  download_message (Error msg) = "Download failed: " ++ msg.
Proof. reflexivity. Qed.

Lemma saves_app (l1 l2 : list effect) : saves (l1 ++ l2) = (saves l1 ++ saves l2)%list.
Proof. unfold saves. apply omap_app. Qed.

(** X15: when the response arrives in time with a success status and the
    body is read with a non-empty payload, the payload is saved exactly
    once, under the title (or "video") with the extension mp3 for an audio
    entry and mp4 for any other, the object URL is released 100 ms later,
    the handler returns and the busy flag is cleared. *)
Theorem handleDownload_success (API_BASE : Js.value) (f : format)
    (resp : http_response) (ms d size : Z) (w : world) :
  ms < 120000 → 0 ≤ d → now w + ms + d ≤ horizon w →
  ok resp = true → size ≠ 0 →
  (handleDownload API_BASE f (After ms (inl resp)) (After d (inl size)) w).2 = Ret tt
  ∧ effects (handleDownload API_BASE f (After ms (inl resp)) (After d (inl size)) w).1
    = (effects w ++ [Fetch (downloadUrl API_BASE (st w) f);
                     SaveAs (filename_of (st w) f); RevokeLater 100])%list
  ∧ now (handleDownload API_BASE f (After ms (inl resp)) (After d (inl size)) w).1
    = now w + ms + d
  ∧ busy (handleDownload API_BASE f (After ms (inl resp)) (After d (inl size)) w).1
      (busy_key f) = false.
Proof.
  intros Hms Hd Hh Hok Hsz. run_handler. case_run; try lia; try congruence.
  unfold busy, filename_of. run_cbn.
  rewrite lookup_insert_eq, <- !app_assoc. done.
Qed.

Lemma handleDownload_success_witness :
  effects slow_body.1
  = [Fetch (downloadUrl api_example loaded_state entry_137);
     SaveAs (filename_of loaded_state entry_137); RevokeLater 100]
  ∧ busy slow_body.1 (busy_key entry_137) = false.
Proof.
  destruct (handleDownload_success api_example entry_137 (Response 200 "OK")
              1000 500000 1024 (start loaded_state 1000000))
    as (_ & He & _ & Hb).
  - lia.
  - lia.
  - vm_compute. congruence.
  - reflexivity.
  - lia.
  - split; [exact He|exact Hb].
Defined.

(** X16: a payload of size zero is not saved: the run ends with the
    empty-file message and the busy flag cleared. *)
Theorem handleDownload_empty_payload (API_BASE : Js.value) (f : format)
    (resp : http_response) (ms d : Z) (w : world) :
  ms < 120000 → 0 ≤ d → now w + ms + d ≤ horizon w → ok resp = true →
  (handleDownload API_BASE f (After ms (inl resp)) (After d (inl 0)) w).2 = Ret tt
  ∧ effects (handleDownload API_BASE f (After ms (inl resp)) (After d (inl 0)) w).1
    = (effects w ++ [Fetch (downloadUrl API_BASE (st w) f)])%list
  ∧ error (st (handleDownload API_BASE f (After ms (inl resp)) (After d (inl 0)) w).1)
    = "Download failed: Received empty file from server"
  ∧ busy (handleDownload API_BASE f (After ms (inl resp)) (After d (inl 0)) w).1
      (busy_key f) = false.
Proof.
  intros Hms Hd Hh Hok. run_handler. case_run; try lia; try congruence.
  unfold busy. run_cbn. by rewrite lookup_insert_eq, download_message_Error.
Qed.

Lemma handleDownload_empty_payload_witness :
  error (st (handleDownload api_example entry_137
               (After 1000 (inl (Response 200 "OK"))) (After 4000 (inl 0))
               (start loaded_state 200000)).1)
  = "Download failed: Received empty file from server".
Proof.
  destruct (handleDownload_empty_payload api_example entry_137 (Response 200 "OK")
              1000 4000 (start loaded_state 200000)) as (_ & _ & He & _).
  - lia.
  - lia.
  - vm_compute. congruence.
  - reflexivity.
  - exact He.
Defined.

(** X17: on a status outside 200..299 the body is never read: whatever
    the body would do, the run ends at the arrival of the response with
    the status and its text in the message, nothing saved and the busy
    flag cleared. *)
Theorem handleDownload_http_error (API_BASE : Js.value) (f : format)
    (resp : http_response) (ms : Z) (body : settle Z) (w : world) :
  ms < 120000 → now w + ms ≤ horizon w → ok resp = false →
  (handleDownload API_BASE f (After ms (inl resp)) body w).2 = Ret tt
  ∧ now (handleDownload API_BASE f (After ms (inl resp)) body w).1 = now w + ms
  ∧ effects (handleDownload API_BASE f (After ms (inl resp)) body w).1
    = (effects w ++ [Fetch (downloadUrl API_BASE (st w) f)])%list
  ∧ error (st (handleDownload API_BASE f (After ms (inl resp)) body w).1)
    = "Download failed: Server returned " ++ pretty (status resp) ++ ": "
      ++ statusText resp
  ∧ busy (handleDownload API_BASE f (After ms (inl resp)) body w).1 (busy_key f)
    = false.
Proof.
  intros Hms Hh Hok. run_handler. case_run; try lia; try congruence.
  all: unfold busy; run_cbn;
    by rewrite lookup_insert_eq, download_message_Error.
Qed.

Lemma handleDownload_http_error_witness :
  error (st (handleDownload api_example entry_137
               (After 1000 (inl (Response 404 "Not Found"))) Never
               (start loaded_state 200000)).1)
  = "Download failed: Server returned 404: Not Found".
Proof.
  destruct (handleDownload_http_error api_example entry_137 (Response 404 "Not Found")
              1000 Never (start loaded_state 200000)) as (_ & _ & _ & He & _).
  - lia.
  - vm_compute. congruence.
  - reflexivity.
  - exact He.
Defined.

(** X18: when [fetch] itself is rejected before the deadline, the message
    of the rejection is surfaced and the busy flag is cleared, but the
    abort timer is not: [clearTimeout] is never reached and the timer
    stays armed for its original due time. *)
Theorem handleDownload_fetch_rejected (API_BASE : Js.value) (f : format)
    (err : exn) (ms : Z) (body : settle Z) (w : world) :
  ms < 120000 → now w + ms ≤ horizon w →
  (handleDownload API_BASE f (After ms (inr err)) body w).2 = Ret tt
  ∧ error (st (handleDownload API_BASE f (After ms (inr err)) body w).1)
    = download_message err
  ∧ busy (handleDownload API_BASE f (After ms (inr err)) body w).1 (busy_key f)
    = false
  ∧ timer (handleDownload API_BASE f (After ms (inr err)) body w).1
    = Some (now w + 120000)
  ∧ effects (handleDownload API_BASE f (After ms (inr err)) body w).1
    = (effects w ++ [Fetch (downloadUrl API_BASE (st w) f)])%list.
Proof.
  intros Hms Hh. run_handler. case_run; try lia.
  all: unfold busy; run_cbn; by rewrite lookup_insert_eq.
Qed.

Lemma handleDownload_fetch_rejected_witness :
  error (st (handleDownload api_example entry_137
               (After 300 (inr (Exn "TypeError" "Failed to fetch" Js.Undefined None)))
               Never (start loaded_state 200000)).1)
  = "Download failed: Failed to fetch"
  ∧ timer (handleDownload api_example entry_137
             (After 300 (inr (Exn "TypeError" "Failed to fetch" Js.Undefined None)))
             Never (start loaded_state 200000)).1
    = Some 120000.
Proof.
  destruct (handleDownload_fetch_rejected api_example entry_137
              (Exn "TypeError" "Failed to fetch" Js.Undefined None) 300 Never
              (start loaded_state 200000)) as (_ & He & _ & Ht & _).
  - lia.
  - vm_compute. congruence.
  - split; [exact He|exact Ht].
Defined.

(** X19: a download is scoped to its own key: however it ends, it leaves
    the metadata, the URL, the loading flag and the busy flag of every
    other key as they were, so the results stay on screen after a failed
    download. *)
Theorem handleDownload_scoped (API_BASE : Js.value) (f : format)
    (net : settle http_response) (body : settle Z) (w : world) :
  videoData (st (handleDownload API_BASE f net body w).1) = videoData (st w)
  ∧ url (st (handleDownload API_BASE f net body w).1) = url (st w)
  ∧ loading (st (handleDownload API_BASE f net body w).1) = loading (st w)
  ∧ shows_results (st (handleDownload API_BASE f net body w).1)
    = shows_results (st w)
  ∧ ∀ k, k ≠ busy_key f →
      downloadingMap (st (handleDownload API_BASE f net body w).1) !! k
      = downloadingMap (st w) !! k.
Proof.
  unfold shows_results. run_handler.
  case_run; (repeat split; [done..|]); intros k Hk;
    by rewrite ?lookup_insert_ne.
Qed.

Lemma handleDownload_scoped_witness :
  downloadingMap (st timed_out.1) !! "140" = None.
Proof.
  destruct (handleDownload_scoped api_example entry_137 Never Never
              (start loaded_state 120000)) as (_ & _ & _ & _ & Hk).
  apply (Hk "140"). vm_compute. congruence.
Defined.

(** X20: the busy flag drives the cells of every entry with the same busy
    key.  It is set before the request is issued: in the state in which
    [handleDownload] suspends at [fetch] each of those cells shows the
    spinner.  When [handleDownload] ends it has cleared the flag, and each
    of those cells offers its button again, disabled only if there is no
    [videoData]. *)
Theorem handleDownload_drives_cells (API_BASE : Js.value) (f : format)
    (net : settle http_response) (body : settle Z) (w : world) :
  ((∀ ms r, net = After ms r → horizon w < now w + ms) →
   horizon w < now w + 120000 →
   ∀ g, busy_key g = busy_key f →
     DownloadCell (st (handleDownload API_BASE f net body w).1) g = Spinner)
  ∧ ((handleDownload API_BASE f net body w).2 ≠ Pending →
     ∀ g, busy_key g = busy_key f →
       DownloadCell (st (handleDownload API_BASE f net body w).1) g
       = Button (negb (data_truthy
                         (videoData (st (handleDownload API_BASE f net body w).1))))).
Proof.
  unfold DownloadCell, isDownloading. split.
  - intros Hnet Hdue g ->. run_handler.
    destruct net as [ms r|]; [specialize (Hnet ms r eq_refl)|];
      case_run; try lia; by rewrite lookup_insert_eq.
  - run_handler. case_run; intros Hp g Hg; try done;
      rewrite Hg; by rewrite lookup_insert_eq.
Qed.

Lemma handleDownload_drives_cells_witness :
  DownloadCell (st first_call.1) entry_137 = Spinner
  ∧ DownloadCell (st timed_out.1) entry_137 = Button false.
Proof.
  split.
  - destruct (handleDownload_drives_cells api_example entry_137 Never Never
                idle_world) as [Hsusp _].
    apply Hsusp.
    + intros ms r H. discriminate H.
    + vm_compute. reflexivity.
    + reflexivity.
  - destruct (handleDownload_drives_cells api_example entry_137 Never Never
                (start loaded_state 120000)) as [_ Hexit].
    apply (Hexit ltac:(vm_compute; congruence) entry_137 eq_refl).
Defined.

(** X21: a run saves at most one file, and it saves one only on the
    success path: the response had a success status and its body was read
    with a non-zero size; by then the handler has returned.  On every other
    path nothing is saved. *)
Theorem handleDownload_saves_once (API_BASE : Js.value) (f : format)
    (net : settle http_response) (body : settle Z) (w : world) :
  saves (effects (handleDownload API_BASE f net body w).1) = saves (effects w)
  ∨ (saves (effects (handleDownload API_BASE f net body w).1)
     = (saves (effects w) ++ [filename_of (st w) f])%list
     ∧ (handleDownload API_BASE f net body w).2 = Ret tt
     ∧ ∃ ms resp d size,
         net = After ms (inl resp) ∧ ok resp = true
         ∧ body = After d (inl size) ∧ size ≠ 0).
Proof.
  unfold filename_of. run_handler.
  case_run; rewrite !saves_app; cbn; rewrite ?app_nil_r; eauto 12.
Qed.

(** X22: the extension follows the tab an entry is offered on: a
    successful download of an entry of the audio sequence is saved as
    mp3, one of an entry of the video sequence as mp4. *)
Theorem saved_extension_by_tab (API_BASE : Js.value) (raw : raw_formats)
    (f : format) (resp : http_response) (ms d size : Z) (w : world) :
  ms < 120000 → 0 ≤ d → now w + ms + d ≤ horizon w →
  ok resp = true → size ≠ 0 →
  (f ∈ audioFormats raw →
     saves (effects (handleDownload API_BASE f (After ms (inl resp))
                       (After d (inl size)) w).1)
     = (saves (effects w)
        ++ [Js.toString (Js.or (opt_title (videoData (st w))) (Js.Str "video"))
            +:+ ".mp3"])%list)
  ∧ (f ∈ videoFormats raw →
       saves (effects (handleDownload API_BASE f (After ms (inl resp))
                         (After d (inl size)) w).1)
       = (saves (effects w)
          ++ [Js.toString (Js.or (opt_title (videoData (st w))) (Js.Str "video"))
              +:+ ".mp4"])%list).
Proof.
  intros Hms Hd Hh Hok Hsz.
  unfold audioFormats, videoFormats.
  split; intros Hin; apply list_elem_of_filter in Hin as [Ht _];
    unfold has_type in Ht;
    run_handler; case_run; try lia; try congruence;
    unfold saves; rewrite !omap_app, Ht; cbn; rewrite !app_nil_r; reflexivity.
Qed.

Lemma saved_extension_by_tab_witness :
  saves (effects (handleDownload api_example (withType raw_140)
                    (After 1000 (inl (Response 200 "OK"))) (After 4000 (inl 2048))
                    (start loaded_state 200000)).1)
  = ["My clip.mp3"]
  ∧ saves (effects slow_body.1) = ["My clip.mp4"].
Proof.
  split.
  - apply (saved_extension_by_tab api_example three_raw (withType raw_140)
             (Response 200 "OK") 1000 4000 2048 (start loaded_state 200000)).
    + lia.
    + lia.
    + vm_compute. congruence.
    + reflexivity.
    + lia.
    + vm_compute. left.
  - apply (saved_extension_by_tab api_example three_raw entry_137
             (Response 200 "OK") 1000 500000 1024 (start loaded_state 1000000)).
    + lia.
    + lia.
    + vm_compute. congruence.
    + reflexivity.
    + lia.
    + vm_compute. left.
Defined.

(** The world in which [handleFetch] leaves a response with truthy
    formats that arrived in time. *)
Lemma handleFetch_stores (API_BASE : Js.value) (d : info) (t : Z) (w : world) :
  Js.trim (url (st w)) ≠ "" → raw_truthy (formats d) = true →
  t < 30000 → now w + t ≤ horizon w →
  handleFetch API_BASE (After t (inl (DataObject d))) w
  = (World (State (url (st w)) (DataObject d) false (downloadingMap (st w)) "")
       (now w + t) (horizon w) (timer w)
       (effects w ++ [Post (Js.toString API_BASE +:+ "/api/info") (url (st w))]),
     Ret tt).
Proof.
  intros Hurl Hf Ht Hh. apply String.eqb_neq in Hurl.
  run_handler. rewrite Hurl. case_run; try lia.
  rewrite Hf. reflexivity.
Qed.

(** X23: a fetch followed by a download: after a response with truthy
    formats has been stored, a successful download issues its request
    with the title of that response and saves the payload under that
    title, or under "video" when the title is falsy. *)
Theorem fetch_then_download (API_BASE : Js.value) (d : info) (f : format)
    (resp : http_response) (t ms dd size : Z) (w : world) :
  Js.trim (url (st w)) ≠ "" → raw_truthy (formats d) = true →
  t < 30000 → 0 ≤ ms → ms < 120000 → 0 ≤ dd →
  now w + t + ms + dd ≤ horizon w → ok resp = true → size ≠ 0 →
  effects (handleDownload API_BASE f (After ms (inl resp)) (After dd (inl size))
             (handleFetch API_BASE (After t (inl (DataObject d))) w).1).1
  = (effects w
     ++ [Post (Js.toString API_BASE +:+ "/api/info") (url (st w));
         Fetch (Js.toString API_BASE +:+ "/api/download?url="
                +:+ Js.encodeURIComponent (url (st w))
                +:+ "&format_id="
                +:+ Js.toString (Js.nullish (Js.get f "format_id") (Js.Str ""))
                +:+ "&title="
                +:+ Js.encodeURIComponent
                     (Js.toString (Js.or (title d) (Js.Str "video")))
                +:+ "&type=" +:+ Js.encodeURIComponent (Js.toString (Js.get f "type")));
         SaveAs (Js.toString (Js.or (title d) (Js.Str "video")) +:+ "."
                 +:+ (if Js.strict_eq (Js.get f "type") (Js.Str "audio")
                     then "mp3" else "mp4"));
         RevokeLater 100])%list.
Proof.
  intros Hurl Hf Ht Hms0 Hms Hdd Hh Hok Hsz.
  rewrite handleFetch_stores by (done || lia).
  cbn [fst]. unfold downloadUrl.
  run_handler. case_run; try lia; try congruence.
  by rewrite <- !app_assoc.
Qed.

Lemma fetch_then_download_witness :
  saves (effects (handleDownload api_example entry_137
                    (After 1000 (inl (Response 200 "OK"))) (After 4000 (inl 2048))
                    (handleFetch api_example
                       (After 800 (inl (DataObject formats_and_error)))
                       (start loading_state 200000)).1).1)
  = ["My clip.mp4"].
Proof.
  rewrite (fetch_then_download api_example formats_and_error entry_137
             (Response 200 "OK") 800 1000 4000 2048 (start loading_state 200000)).
  - vm_compute. reflexivity.
  - vm_compute. congruence.
  - reflexivity.
  - lia.
  - lia.
  - lia.
  - lia.
  - vm_compute. congruence.
  - reflexivity.
  - lia.
Defined.

(** ** Boundary inputs of the platform functions *)

(** A URL made of Unicode white space is blank: the guard of [handleFetch]
    returns and the Fetch button is disabled. *)
Example blank_unicode_url :
  Js.trim nbsp_url = "" ∧ fetch_disabled nbsp_state = true.
Proof. split; reflexivity. Qed.

(** The cell of an entry whose busy key names an inherited property shows
    the spinner without any download: the lookup finds the inherited
    value. *)
Example inherited_key_shows_spinner :
  busy_key entry_constructor = "constructor"
  ∧ DownloadCell loaded_state entry_constructor = Spinner
  ∧ DownloadCell loaded_state entry_137 = Button false.
Proof. vm_compute. repeat split; reflexivity. Qed.
